(** * Order matching core: orders, ordering keys, Match and the price Comparator

    A shallow embedding of package [matching] (the order model, [Match],
    [Comparator] and [StopComparator]) together with the parts of the
    packages it imports that its behaviour depends on:
    arbitrary-precision decimals, instants of time, the fatal logger and
    the unsigned integer comparator. *)

From Stdlib Require Import ZArith NArith QArith Qpower Qminmax Bool List String Lia Lqa.
Import ListNotations.

Local Open Scope Z_scope.

(** ** Arbitrary-precision decimals (package [shopspring/decimal])

    A decimal is [value * 10 ^ exp].  The coefficient is a big integer and
    the exponent an [int32].  [Add], [Sub] and [rescale] take the smaller
    of two exponents, so they stay in range; [Mul] adds two exponents and
    panics when the sum leaves [int32]. *)
Module decimal.

Record Decimal : Type := mkDecimal { value : Z; exp : Z }.

(** [New(value, exp)]. *)
Definition New (v e : Z) : Decimal := mkDecimal v e.

(** [var Zero = New(0, 1)]. *)
Definition Zero : Decimal := New 0 1.

(** The Go zero value [Decimal{}]: a nil coefficient reads as 0. *)
Definition zero_value : Decimal := mkDecimal 0 0.

(** [big.Int.Cmp]: -1, 0 or +1. *)
Definition bigCmp (x y : Z) : Z :=
  match x ?= y with
  | Lt => -1
  | Eq => 0
  | Gt => 1
  end.

(** [rescale]: same number at another exponent; raising the exponent
    truncates. *)
Definition rescale (d : Decimal) (e : Z) : Decimal :=
  if exp d =? e then d
  else
    let diff := Z.abs (e - exp d) in
    let expScale := 10 ^ diff in
    if exp d <? e then mkDecimal (Z.quot (value d) expScale) e
    else if e <? exp d then mkDecimal (value d * expScale) e
    else mkDecimal (value d) e.

(** [RescalePair]: both operands at the smaller of the two exponents. *)
Definition RescalePair (d1 d2 : Decimal) : Decimal * Decimal :=
  if exp d1 =? exp d2 then (d1, d2)
  else
    let baseScale := Z.min (exp d1) (exp d2) in
    if negb (baseScale =? exp d1) then (rescale d1 baseScale, d2)
    else (d1, rescale d2 baseScale).

Definition Add (d d2 : Decimal) : Decimal :=
  let '(rd, rd2) := RescalePair d d2 in
  mkDecimal (value rd + value rd2) (exp rd).

Definition Sub (d d2 : Decimal) : Decimal :=
  let '(rd, rd2) := RescalePair d d2 in
  mkDecimal (value rd - value rd2) (exp rd).

Definition MaxInt32 : Z := 2147483647.

Definition MinInt32 : Z := -2147483648.

(** [Mul]: [None] stands for the panic "exponent overflows an int32". *)
Definition Mul (d d2 : Decimal) : option Decimal :=
  let expInt64 := exp d + exp d2 in
  if (expInt64 >? MaxInt32) || (expInt64 <? MinInt32) then None
  else Some (mkDecimal (value d * value d2) expInt64).

Definition Cmp (d d2 : Decimal) : Z :=
  if exp d =? exp d2 then bigCmp (value d) (value d2)
  else
    let '(rd, rd2) := RescalePair d d2 in
    bigCmp (value rd) (value rd2).

Definition Equal (d d2 : Decimal) : bool := Cmp d d2 =? 0.

Definition GreaterThan (d d2 : Decimal) : bool := Cmp d d2 =? 1.

Definition GreaterThanOrEqual (d d2 : Decimal) : bool :=
  let cmp := Cmp d d2 in (cmp =? 1) || (cmp =? 0).

Definition LessThan (d d2 : Decimal) : bool := Cmp d d2 =? -1.

Definition LessThanOrEqual (d d2 : Decimal) : bool :=
  let cmp := Cmp d d2 in (cmp =? -1) || (cmp =? 0).

(** [Min(first, rest...)]: the first of the smallest arguments. *)
Definition Min (first : Decimal) (rest : list Decimal) : Decimal :=
  fold_left (fun ans item => if Cmp item ans <? 0 then item else ans)
            rest first.

(** [NullDecimal]: a decimal payload and a validity flag.  The payload of
    an invalid value is whatever the struct holds; a [NullDecimal] that
    was never assigned holds the zero value. *)
Record NullDecimal : Type := mkNullDecimal { Decimal_ : Decimal; Valid : bool }.

Definition null_zero_value : NullDecimal := mkNullDecimal zero_value false.

(** The number a decimal stands for. *)
Definition toQ (d : Decimal) : Q :=
  (inject_Z (value d) * inject_Z 10 ^ exp d)%Q.

End decimal.

(** ** Instants of time (package [time])

    A [time.Time] is represented by the instant it denotes, in
    nanoseconds; [Before] and [After] compare instants. *)
Module time.

Definition Time : Type := Z.

Definition Before (t u : Time) : bool := t <? u.

Definition After (t u : Time) : bool := u <? t.

End time.

(** ** [utils.UInt64Comparator] (package [gods/utils]); a [uint64] is a
    natural number. *)
Module utils.

Definition UInt64Comparator (a b : N) : Z :=
  if (b <? a)%N then 1
  else if (a <? b)%N then -1
  else 0.

End utils.

(** ** Ways a call can end

    [log.Fatalf] writes its message and exits the process, so a call that
    reaches it never returns; dereferencing a nil pointer panics, and so
    does a product of decimals whose exponent leaves [int32]. *)
Module log.

Inductive arg : Type :=
| arg_string (s : string)
| arg_uint (n : N).

Inductive outcome (A : Type) : Type :=
| Returned (a : A)
| Fatal (format : string) (args : list arg)
| NilDereference
| ExponentOverflow (expInt64 : Z).

Arguments Returned {A} a.
Arguments Fatal {A} format args.
Arguments NilDereference {A}.
Arguments ExponentOverflow {A} expInt64.

Definition Fatalf {A : Type} (format : string) (args : list arg) : outcome A :=
  Fatal format args.

End log.

Import decimal time log.

(** ** Package [matching] *)
Module matching.

Definition Side : Type := string.

Definition SideSell : Side := "sell"%string.

Definition SideBuy : Side := "buy"%string.

Module Key.

Record t : Type := mk {
  ID : N;
  Side : Side;
  Price : NullDecimal;
  StopPrice : NullDecimal;
  CreatedAt : Time
}.

End Key.

(** Modelled from the spec: the declaration of [Trade] is not among the
    sources; the spec lists its fields (symbol, trade price, trade
    quantity, trade total, maker order ID, taker order ID, maker member
    ID, taker member ID, timestamp) and the struct literals in [Match]
    give their names. *)
Module Trade.

Record t : Type := mk {
  Symbol : string;
  Price : Decimal;
  Quantity : Decimal;
  Total : Decimal;
  MakerOrderID : N;
  TakerOrderID : N;
  MakerID : N;
  TakerID : N;
  CreatedAt : Time
}.

End Trade.

Module Order.

Record t : Type := mk {
  ID : N;
  Symbol : string;
  MemberID : N;
  Side : Side;
  Price : NullDecimal;
  StopPrice : NullDecimal;
  Quantity : Decimal;
  FilledQuantity : Decimal;
  ImmediateOrCancel : bool;
  CreatedAt : Time
}.

(** [Key] returns a Key; the composite literal names four fields, the
    others keep their zero value. *)
Definition Key (o : t) : Key.t :=
  {| Key.ID := ID o;
     Key.Side := Side o;
     Key.Price := Price o;
     Key.StopPrice := null_zero_value;
     Key.CreatedAt := CreatedAt o |}.

Definition Filled (o : t) : bool := Equal (Quantity o) (FilledQuantity o).

Definition PendingQuantity (o : t) : Decimal :=
  Sub (Quantity o) (FilledQuantity o).

(** [Fill] as a function from the order before to the order after. *)
Definition Fill (o : t) (quantity : Decimal) : t :=
  {| ID := ID o;
     Symbol := Symbol o;
     MemberID := MemberID o;
     Side := Side o;
     Price := Price o;
     StopPrice := StopPrice o;
     Quantity := Quantity o;
     FilledQuantity := Add (FilledQuantity o) quantity;
     ImmediateOrCancel := ImmediateOrCancel o;
     CreatedAt := CreatedAt o |}.

Definition IsLimit (o : t) : bool := Valid (Price o).

Definition IsMarket (o : t) : bool := negb (Valid (Price o)).

(** *** Calls through pointers

    [Match] works on two order objects through pointers and updates them
    in place.  The store holds the object the receiver points to and the
    object the argument points to; a pointer is nil or names one of
    them.  ([Match] called with one and the same object for both stops at
    its first test, like any other pair of equal sides, before anything is
    written.) *)
Inductive ref : Type := maker_obj | taker_obj.

Definition ptr : Type := option ref.

Record Store : Type := mkStore { at_maker : t; at_taker : t }.

Definition M (A : Type) : Type := Store -> outcome A * Store.

Definition ret {A : Type} (a : A) : M A := fun s => (Returned a, s).

Definition bind {A B : Type} (c : M A) (k : A -> M B) : M B :=
  fun s =>
    match c s with
    | (Returned a, s') => k a s'
    | (Fatal format args, s') => (Fatal format args, s')
    | (NilDereference, s') => (NilDereference, s')
    | (ExponentOverflow e, s') => (ExponentOverflow e, s')
    end.

Definition fatalf {A : Type} (format : string) (args : list arg) : M A :=
  fun s => (Fatalf format args, s).

Definition read (r : ref) (s : Store) : t :=
  match r with
  | maker_obj => at_maker s
  | taker_obj => at_taker s
  end.

Definition write (r : ref) (o : t) (s : Store) : Store :=
  match r with
  | maker_obj => mkStore o (at_taker s)
  | taker_obj => mkStore (at_maker s) o
  end.

(** [p.f] or [p.f()] for a method [f] that only reads. *)
Definition get {A : Type} (p : ptr) (f : t -> A) : M A :=
  fun s =>
    match p with
    | Some r => (Returned (f (read r s)), s)
    | None => (NilDereference, s)
    end.

(** [d.Mul(d2)], which returns the product or panics. *)
Definition call_Mul (d d2 : Decimal) : M Decimal :=
  fun s =>
    match Mul d d2 with
    | Some product => (Returned product, s)
    | None => (ExponentOverflow (exp d + exp d2), s)
    end.

(** [*p], for the fields of a composite literal. *)
Definition deref (p : ptr) : M t := get p (fun o => o).

(** [p.Fill(quantity)]. *)
Definition call_Fill (p : ptr) (quantity : Decimal) : M unit :=
  fun s =>
    match p with
    | Some r => (Returned tt, write r (Fill (read r s) quantity) s)
    | None => (NilDereference, s)
    end.

Declare Scope go_scope.
Delimit Scope go_scope with go.
Notation "x <- c ;; k" := (bind c (fun x => k))
  (at level 61, c at next level, right associativity) : go_scope.
Notation "c ;; k" := (bind c (fun _ => k))
  (at level 61, right associativity) : go_scope.

Local Open Scope go_scope.
Local Open Scope string_scope.

(** [Match] matches maker with a taker and returns trade if there is a
    match.  [now] is the reading of the clock that [time.Now()] gives. *)
Definition Match (now : Time) : M (option Trade.t) :=
  let o : ptr := Some maker_obj in
  let taker : ptr := Some taker_obj in
  let maker := o in
  makerSide <- get maker Side ;;
  takerSide <- get taker Side ;;
  if makerSide =? takerSide then
    makerID <- get maker ID ;;
    takerID <- get taker ID ;;
    fatalf "[oceanbook.orderbook] match order with same side %s, %d, %d"
           [arg_string makerSide; arg_uint makerID; arg_uint takerID]
  else
    let '(bidOrder, askOrder) :=
      if makerSide =? SideBuy then (maker, taker)
      else if makerSide =? SideSell then (taker, maker)
      else (None, None) in
    takerIsLimit <- get taker IsLimit ;;
    if takerIsLimit then
      bidPrice <- get bidOrder Price ;;
      askPrice <- get askOrder Price ;;
      if GreaterThanOrEqual (Decimal_ bidPrice) (Decimal_ askPrice) then
        bidPending <- get bidOrder PendingQuantity ;;
        askPending <- get askOrder PendingQuantity ;;
        let filledQuantity := Min bidPending [askPending] in
        makerPrice <- get maker Price ;;
        total <- call_Mul filledQuantity (Decimal_ makerPrice) ;;
        call_Fill bidOrder filledQuantity ;;
        call_Fill askOrder filledQuantity ;;
        m <- deref maker ;;
        t <- deref taker ;;
        ret (Some {| Trade.Symbol := Symbol m;
                     Trade.Price := Decimal_ (Price m);
                     Trade.Quantity := filledQuantity;
                     Trade.Total := total;
                     Trade.MakerOrderID := ID m;
                     Trade.TakerOrderID := ID t;
                     Trade.MakerID := MemberID m;
                     Trade.TakerID := MemberID t;
                     Trade.CreatedAt := now |})
      else ret None
    else
      takerIsMarket <- get taker IsMarket ;;
      if takerIsMarket then
        bidPending <- get bidOrder PendingQuantity ;;
        askPending <- get askOrder PendingQuantity ;;
        let filledQuantity := Min bidPending [askPending] in
        makerPrice <- get maker Price ;;
        total <- call_Mul filledQuantity (Decimal_ makerPrice) ;;
        call_Fill bidOrder filledQuantity ;;
        call_Fill askOrder filledQuantity ;;
        m <- deref maker ;;
        t <- deref taker ;;
        ret (Some {| Trade.Symbol := Symbol m;
                     Trade.Price := Decimal_ (Price m);
                     Trade.Quantity := filledQuantity;
                     Trade.Total := total;
                     Trade.MakerOrderID := ID m;
                     Trade.TakerOrderID := ID t;
                     Trade.MakerID := MemberID m;
                     Trade.TakerID := MemberID t;
                     Trade.CreatedAt := now |})
      else ret None.

End Order.

Local Open Scope string_scope.

(** [Comparator] is used for comparing Key. *)
Definition Comparator (a b : Key.t) : outcome Z :=
  let this := a in
  let that := b in
  if negb (Key.Side this =? Key.Side that) then
    Fatalf "[oceanbook.orderbook] compare order with different sides" []
  else if (Key.ID this =? Key.ID that)%N then Returned 0
  else if (Key.Side this =? SideSell)
          && LessThan (Decimal_ (Key.Price this)) (Decimal_ (Key.Price that))
  then Returned 1
  else if (Key.Side this =? SideSell)
          && GreaterThan (Decimal_ (Key.Price this)) (Decimal_ (Key.Price that))
  then Returned (-1)
  else if (Key.Side this =? SideBuy)
          && LessThan (Decimal_ (Key.Price this)) (Decimal_ (Key.Price that))
  then Returned (-1)
  else if (Key.Side this =? SideBuy)
          && GreaterThan (Decimal_ (Key.Price this)) (Decimal_ (Key.Price that))
  then Returned 1
  else if Before (Key.CreatedAt this) (Key.CreatedAt that) then Returned 1
  else if After (Key.CreatedAt this) (Key.CreatedAt that) then Returned (-1)
  else Returned (utils.UInt64Comparator (Key.ID this) (Key.ID that) * -1).

(** [StopComparator] is used for comparing Key. *)
Definition StopComparator (a b : Key.t) : outcome Z :=
  let this := a in
  let that := b in
  if negb (Key.Side this =? Key.Side that) then
    Fatalf "[oceanbook.orderbook] compare order with different sides" []
  else if (Key.ID this =? Key.ID that)%N then Returned 0
  else if (Key.Side this =? SideSell)
          && LessThan (Decimal_ (Key.StopPrice this))
                      (Decimal_ (Key.StopPrice that))
  then Returned 1
  else if (Key.Side this =? SideSell)
          && GreaterThan (Decimal_ (Key.StopPrice this))
                         (Decimal_ (Key.StopPrice that))
  then Returned (-1)
  else if (Key.Side this =? SideBuy)
          && LessThan (Decimal_ (Key.StopPrice this))
                      (Decimal_ (Key.StopPrice that))
  then Returned (-1)
  else if (Key.Side this =? SideBuy)
          && GreaterThan (Decimal_ (Key.StopPrice this))
                         (Decimal_ (Key.StopPrice that))
  then Returned 1
  else if Before (Key.CreatedAt this) (Key.CreatedAt that) then Returned 1
  else if After (Key.CreatedAt this) (Key.CreatedAt that) then Returned (-1)
  else Returned (utils.UInt64Comparator (Key.ID this) (Key.ID that) * -1).

(** ** Notions the properties are stated with *)

(** One order buys and the other sells. *)
Definition opposite_sides (maker taker : Order.t) : Prop :=
  (Order.Side maker = SideBuy /\ Order.Side taker = SideSell) \/
  (Order.Side maker = SideSell /\ Order.Side taker = SideBuy).

(** The order of the pair that [Match] treats as the bid, and the one it
    treats as the ask. *)
Definition bid_of (maker taker : Order.t) : Order.t :=
  if Order.Side maker =? SideBuy then maker else taker.

Definition ask_of (maker taker : Order.t) : Order.t :=
  if Order.Side maker =? SideBuy then taker else maker.

(** The product that [Match] forms on this pair, the quantity to fill
    times the maker's price, has an exponent within [int32]. *)
Definition total_representable (maker taker : Order.t) : bool :=
  let expInt64 :=
    exp (Min (Order.PendingQuantity (bid_of maker taker))
             [Order.PendingQuantity (ask_of maker taker)])
    + exp (Decimal_ (Order.Price maker)) in
  negb ((expInt64 >? MaxInt32)%Z || (expInt64 <? MinInt32)%Z).

(** [0 <= filled_quantity <= quantity], with the decimal comparisons. *)
Definition fill_invariant (o : Order.t) : bool :=
  GreaterThanOrEqual (Order.FilledQuantity o) Zero
  && LessThanOrEqual (Order.FilledQuantity o) (Order.Quantity o).

(** [Match] on the pair returns a trade. *)
Definition produces_trade (now : Time) (maker taker : Order.t) : Prop :=
  exists trade s',
    Order.Match now (Order.mkStore maker taker) = (Returned (Some trade), s').

(** In the order of [Comparator], [a] is above [b]. *)
Definition ranks_above (a b : Key.t) : Prop :=
  Comparator a b = Returned 1 /\ Comparator b a = Returned (-1).

(** [o'] is [o] but for its filled quantity. *)
Definition same_but_filled (o o' : Order.t) : Prop :=
  Order.ID o' = Order.ID o /\
  Order.Symbol o' = Order.Symbol o /\
  Order.MemberID o' = Order.MemberID o /\
  Order.Side o' = Order.Side o /\
  Order.Price o' = Order.Price o /\
  Order.StopPrice o' = Order.StopPrice o /\
  Order.Quantity o' = Order.Quantity o /\
  Order.ImmediateOrCancel o' = Order.ImmediateOrCancel o /\
  Order.CreatedAt o' = Order.CreatedAt o.

(** The price as [Comparator] weighs it: a sell-side key ranks by its
    price negated, a buy-side key by its price. *)
Definition price_rank (k : Key.t) : Q :=
  if Key.Side k =? SideSell then (- toQ (Decimal_ (Key.Price k)))%Q
  else if Key.Side k =? SideBuy then toQ (Decimal_ (Key.Price k))
  else 0%Q.

(** Price-time priority: better price, then earlier creation, then lower
    ID. *)
Definition outranks (a b : Key.t) : Prop :=
  (price_rank b < price_rank a)%Q \/
  ((price_rank a == price_rank b)%Q /\
   (Key.CreatedAt a < Key.CreatedAt b \/
    (Key.CreatedAt a = Key.CreatedAt b /\ (Key.ID a < Key.ID b)%N))).

(** The key that holds, as its price, the stop price of [k]:
    [StopComparator] treats [k] as [Comparator] treats this key. *)
Definition by_stop (k : Key.t) : Key.t :=
  {| Key.ID := Key.ID k;
     Key.Side := Key.Side k;
     Key.Price := Key.StopPrice k;
     Key.StopPrice := Key.StopPrice k;
     Key.CreatedAt := Key.CreatedAt k |}.

(** In the order of [StopComparator], [a] is above [b]. *)
Definition stop_ranks_above (a b : Key.t) : Prop :=
  StopComparator a b = Returned 1 /\ StopComparator b a = Returned (-1).

End matching.

(** ** Orders and keys of the scenarios the properties are tried on *)
Module examples.

Import matching.

Definition limit (v e : Z) : NullDecimal := mkNullDecimal (New v e) true.

Definition no_price : NullDecimal := null_zero_value.

Definition order (id : N) (side : Side) (price : NullDecimal)
    (quantity filled : Decimal) (created : Time) : Order.t :=
  {| Order.ID := id;
     Order.Symbol := "btcusd";
     Order.MemberID := id + 100;
     Order.Side := side;
     Order.Price := price;
     Order.StopPrice := null_zero_value;
     Order.Quantity := quantity;
     Order.FilledQuantity := filled;
     Order.ImmediateOrCancel := false;
     Order.CreatedAt := created |}.

(** A resting sell limit at 50 for 10, 2.5 of it filled. *)
Definition sell_50 : Order.t :=
  order 1 SideSell (limit 50 0) (New 10 0) (New 25 (-1)) 1000.

(** A resting sell limit at 51. *)
Definition sell_51 : Order.t :=
  order 2 SideSell (limit 51 0) (New 10 0) (New 0 0) 1001.

(** Incoming buy limits at 51 and at 50.5, for 4.00. *)
Definition buy_51 : Order.t :=
  order 3 SideBuy (limit 51 0) (New 400 (-2)) (New 0 0) 1002.

Definition buy_50_5 : Order.t :=
  order 4 SideBuy (limit 505 (-1)) (New 400 (-2)) (New 0 0) 1003.

(** A resting bid at 100 with pending quantity 4 and an incoming market
    sell of 10. *)
Definition bid_100 : Order.t :=
  order 5 SideBuy (limit 100 0) (New 6 0) (New 2 0) 1004.

Definition market_sell : Order.t :=
  order 6 SideSell no_price (New 10 0) (New 0 0) 1005.


(** A sell stop order: stop price 90, limit price 89. *)
Definition sell_stop_90 : Order.t :=
  {| Order.ID := 8;
     Order.Symbol := "btcusd";
     Order.MemberID := 108;
     Order.Side := SideSell;
     Order.Price := limit 89 0;
     Order.StopPrice := limit 90 0;
     Order.Quantity := New 1 0;
     Order.FilledQuantity := New 0 0;
     Order.ImmediateOrCancel := false;
     Order.CreatedAt := 1007 |}.

Definition key (id : N) (side : Side) (price : Z) (created : Time) : Key.t :=
  {| Key.ID := id;
     Key.Side := side;
     Key.Price := limit price 0;
     Key.StopPrice := null_zero_value;
     Key.CreatedAt := created |}.

(** A resting sell limit at 50 that is filled: 10.00 of 10. *)
Definition sell_50_filled : Order.t :=
  order 9 SideSell (limit 50 0) (New 10 0) (New 1000 (-2)) 1008.

(** A maker whose side is neither of the two constants. *)
Definition odd_side : Order.t :=
  order 10 "hold"%string (limit 50 0) (New 10 0) (New 0 0) 1009.

(** Orders for 1e2147483647, the largest exponent a decimal can have: a
    resting sell limit at 5e1, an incoming buy limit at 60 and an incoming
    market buy. *)
Definition sell_5e1_huge : Order.t :=
  order 11 SideSell (limit 5 1) (New 1 2147483647) (New 0 2147483647) 1010.

Definition buy_60_huge : Order.t :=
  order 12 SideBuy (limit 60 0) (New 1 2147483647) (New 0 2147483647) 1011.

Definition market_buy_huge : Order.t :=
  order 13 SideBuy no_price (New 1 2147483647) (New 0 2147483647) 1012.

(** A resting sell limit at 60e0 for the same quantity. *)
Definition sell_60_huge : Order.t :=
  order 14 SideSell (limit 60 0) (New 1 2147483647) (New 0 2147483647) 1013.

(** The key of a pending stop order. *)
Definition stop_key (id : N) (side : Side) (stop : Z) (created : Time)
    : Key.t :=
  {| Key.ID := id;
     Key.Side := side;
     Key.Price := null_zero_value;
     Key.StopPrice := limit stop 0;
     Key.CreatedAt := created |}.

End examples.

(** * Facts about the decimal operations

    Every operation is characterised through [toQ]: sums, differences and
    products are exact, and [Cmp] is the comparison of the denoted
    numbers, whatever the exponents of the operands. *)
Module decimal_facts.

Import decimal.

Local Open Scope Q_scope.

Lemma ten_neq_0 : ~ inject_Z 10 == 0.
Proof. intro H. discriminate H. Qed.

Lemma pow10_pos (z : Z) : 0 < inject_Z 10 ^ z.
Proof. apply Qpower_0_lt. reflexivity. Qed.

Lemma toQ_mk (v e : Z) : toQ (mkDecimal v e) = inject_Z v * inject_Z 10 ^ e.
Proof. reflexivity. Qed.

(** Lowering the exponent multiplies the coefficient by the matching power
    of ten: the number is unchanged. *)
Lemma toQ_rescale (d : Decimal) (e : Z) :
  (e <= exp d)%Z -> toQ (rescale d e) == toQ d.
Proof.
  intro Hle. unfold rescale.
  destruct (Z.eqb_spec (exp d) e) as [Heq | Hne]; [reflexivity |].
  destruct (Z.ltb_spec (exp d) e) as [Hlt | _]; [lia |].
  destruct (Z.ltb_spec e (exp d)) as [_ | Hge]; [| lia].
  rewrite toQ_mk. unfold toQ.
  replace (Z.abs (e - exp d)) with (exp d - e)%Z by lia.
  rewrite inject_Z_mult, Zpower_Qpower by lia.
  rewrite <- Qmult_assoc, <- Qpower_plus by apply ten_neq_0.
  replace (exp d - e + e)%Z with (exp d) by lia. reflexivity.
Qed.

Lemma exp_rescale (d : Decimal) (e : Z) : exp (rescale d e) = e.
Proof.
  unfold rescale.
  destruct (Z.eqb_spec (exp d) e); [assumption |].
  destruct (exp d <? e)%Z; [reflexivity |].
  destruct (e <? exp d)%Z; reflexivity.
Qed.

Lemma RescalePair_spec (d1 d2 : Decimal) :
  exp (fst (RescalePair d1 d2)) = exp (snd (RescalePair d1 d2)) /\
  exp (fst (RescalePair d1 d2)) = Z.min (exp d1) (exp d2) /\
  toQ (fst (RescalePair d1 d2)) == toQ d1 /\
  toQ (snd (RescalePair d1 d2)) == toQ d2.
Proof.
  unfold RescalePair.
  destruct (Z.eqb_spec (exp d1) (exp d2)) as [Heq | Hne]; simpl.
  - repeat split; try reflexivity; lia.
  - destruct (Z.eqb_spec (Z.min (exp d1) (exp d2)) (exp d1)) as [Hm | Hm]; simpl.
    + rewrite exp_rescale. repeat split; try reflexivity; try lia.
      apply toQ_rescale. lia.
    + rewrite exp_rescale. repeat split; try reflexivity; try lia.
      apply toQ_rescale. lia.
Qed.

Lemma toQ_Add (d d2 : Decimal) : toQ (Add d d2) == toQ d + toQ d2.
Proof.
  unfold Add. destruct (RescalePair_spec d d2) as (He & _ & H1 & H2).
  destruct (RescalePair d d2) as [rd rd2]; simpl in *.
  rewrite <- H1, <- H2, toQ_mk. unfold toQ.
  rewrite inject_Z_plus, He. ring.
Qed.

Lemma toQ_Sub (d d2 : Decimal) : toQ (Sub d d2) == toQ d - toQ d2.
Proof.
  unfold Sub. destruct (RescalePair_spec d d2) as (He & _ & H1 & H2).
  destruct (RescalePair d d2) as [rd rd2]; simpl in *.
  rewrite <- H1, <- H2, toQ_mk. unfold toQ.
  unfold Z.sub. rewrite inject_Z_plus, inject_Z_opp, He. ring.
Qed.

Lemma toQ_Mul (d d2 product : Decimal) :
  Mul d d2 = Some product -> toQ product == toQ d * toQ d2.
Proof.
  unfold Mul. destruct (_ || _); [discriminate |].
  intro H. injection H as <-. rewrite toQ_mk. unfold toQ.
  rewrite inject_Z_mult, Qpower_plus by apply ten_neq_0. ring.
Qed.

Lemma exp_Add (d d2 : Decimal) : exp (Add d d2) = Z.min (exp d) (exp d2).
Proof.
  unfold Add. destruct (RescalePair_spec d d2) as (_ & He & _).
  destruct (RescalePair d d2) as [rd rd2]; simpl in *. exact He.
Qed.

Lemma exp_Sub (d d2 : Decimal) : exp (Sub d d2) = Z.min (exp d) (exp d2).
Proof.
  unfold Sub. destruct (RescalePair_spec d d2) as (_ & He & _).
  destruct (RescalePair d d2) as [rd rd2]; simpl in *. exact He.
Qed.

(** Whether [Mul] panics depends on the two exponents only. *)
Lemma Mul_same_exp (d d2 d' d2' : Decimal) (product : Decimal) :
  exp d' = exp d -> exp d2' = exp d2 ->
  Mul d d2 = Some product ->
  exists product', Mul d' d2' = Some product'.
Proof.
  unfold Mul. intros -> ->. destruct (_ || _); [discriminate | eauto].
Qed.

Lemma toQ_Zero : toQ Zero == 0.
Proof. reflexivity. Qed.

Lemma toQ_zero_value : toQ zero_value == 0.
Proof. reflexivity. Qed.

(** Two decimals at one exponent compare like their coefficients. *)
Lemma Qcompare_same_exp (v1 v2 e : Z) :
  (toQ (mkDecimal v1 e) ?= toQ (mkDecimal v2 e)) = (v1 ?= v2)%Z.
Proof.
  rewrite !toQ_mk. pose proof (pow10_pos e) as Hp.
  destruct (Z.compare_spec v1 v2) as [Heq | Hlt | Hgt].
  - subst. apply Qeq_alt. reflexivity.
  - apply Qlt_alt. apply Qmult_lt_compat_r; [assumption |].
    rewrite <- Zlt_Qlt. assumption.
  - apply Qgt_alt. apply Qmult_lt_compat_r; [assumption |].
    rewrite <- Zlt_Qlt. assumption.
Qed.

(** [Cmp] is the comparison of the denoted numbers. *)
Lemma Cmp_toQ (d d2 : Decimal) :
  Cmp d d2 =
  match toQ d ?= toQ d2 with Lt => (-1)%Z | Eq => 0%Z | Gt => 1%Z end.
Proof.
  unfold Cmp, bigCmp.
  destruct (Z.eqb_spec (exp d) (exp d2)) as [Heq | Hne].
  - destruct d as [v e], d2 as [v2 e2]; simpl in *. subst e2.
    rewrite Qcompare_same_exp. reflexivity.
  - destruct (RescalePair_spec d d2) as (He & _ & H1 & H2).
    destruct (RescalePair d d2) as [rd rd2]; simpl in *.
    rewrite <- H1, <- H2.
    destruct rd as [v e], rd2 as [v2 e2]; simpl in *. subst e2.
    rewrite Qcompare_same_exp. reflexivity.
Qed.

Lemma Cmp_cases (d d2 : Decimal) :
  (Cmp d d2 = (-1)%Z /\ toQ d < toQ d2) \/
  (Cmp d d2 = 0%Z /\ toQ d == toQ d2) \/
  (Cmp d d2 = 1%Z /\ toQ d2 < toQ d).
Proof.
  rewrite Cmp_toQ. destruct (Qcompare_spec (toQ d) (toQ d2)); auto.
Qed.

Ltac cmp_cases d d2 :=
  let H := fresh "Hcmp" in
  let Hq := fresh "Hq" in
  destruct (Cmp_cases d d2) as [[H Hq] | [[H Hq] | [H Hq]]];
  rewrite H; simpl.

Lemma LessThan_spec (d d2 : Decimal) :
  LessThan d d2 = true <-> toQ d < toQ d2.
Proof.
  unfold LessThan. cmp_cases d d2; split; intro; try easy; lra.
Qed.

Lemma GreaterThan_spec (d d2 : Decimal) :
  GreaterThan d d2 = true <-> toQ d2 < toQ d.
Proof.
  unfold GreaterThan. cmp_cases d d2; split; intro; try easy; lra.
Qed.

Lemma Equal_spec (d d2 : Decimal) :
  Equal d d2 = true <-> toQ d == toQ d2.
Proof.
  unfold Equal. cmp_cases d d2; split; intro; try easy; lra.
Qed.

Lemma GreaterThanOrEqual_spec (d d2 : Decimal) :
  GreaterThanOrEqual d d2 = true <-> toQ d2 <= toQ d.
Proof.
  unfold GreaterThanOrEqual. cmp_cases d d2; split; intro; try easy; lra.
Qed.

Lemma LessThanOrEqual_spec (d d2 : Decimal) :
  LessThanOrEqual d d2 = true <-> toQ d <= toQ d2.
Proof.
  unfold LessThanOrEqual. cmp_cases d d2; split; intro; try easy; lra.
Qed.

(** [Min] of two: the first argument unless the second is strictly
    smaller. *)
Lemma Min_pair (a b : Decimal) :
  (toQ a <= toQ b /\ Min a [b] = a) \/ (toQ b < toQ a /\ Min a [b] = b).
Proof.
  unfold Min; simpl. cmp_cases b a.
  - right. split; [assumption | reflexivity].
  - left. split; [lra | reflexivity].
  - left. split; [lra | reflexivity].
Qed.

Lemma toQ_Min_pair (a b : Decimal) :
  toQ (Min a [b]) == Qmin (toQ a) (toQ b).
Proof.
  destruct (Min_pair a b) as [[Hle ->] | [Hlt ->]].
  - symmetry. apply Q.min_l. assumption.
  - symmetry. apply Q.min_r. lra.
Qed.

End decimal_facts.

(** * What a call of [Match] does *)
Module Match_facts.

Import decimal matching matching.Order decimal_facts.

Local Open Scope string_scope.

Lemma opposite_sides_neq (maker taker : Order.t) :
  opposite_sides maker taker -> Side maker <> Side taker.
Proof.
  intros [[Hm Ht] | [Hm Ht]]; rewrite Hm, Ht; discriminate.
Qed.

Lemma opposite_sides_maker (maker taker : Order.t) :
  opposite_sides maker taker ->
  Side maker = SideBuy \/ Side maker = SideSell.
Proof. intros [[Hm _] | [Hm _]]; auto. Qed.

(** Equal sides: the fatal log entry, before anything is written. *)
Lemma Match_same_side (now : Time) (maker taker : Order.t) :
  Side maker = Side taker ->
  Match now (mkStore maker taker) =
  (Fatal "[oceanbook.orderbook] match order with same side %s, %d, %d"
         [arg_string (Side maker); arg_uint (ID maker); arg_uint (ID taker)],
   mkStore maker taker).
Proof.
  intro Heq. unfold Match, bind, get; simpl.
  rewrite Heq, String.eqb_refl. reflexivity.
Qed.

(** Different sides and a maker that neither buys nor sells: both local
    pointers stay nil and the first use of one panics. *)
Lemma Match_no_bid_ask (now : Time) (maker taker : Order.t) :
  Side maker <> Side taker ->
  Side maker <> SideBuy -> Side maker <> SideSell ->
  Match now (mkStore maker taker) = (NilDereference, mkStore maker taker).
Proof.
  intros Hne Hb Hs. unfold Match, bind, get; simpl.
  apply String.eqb_neq in Hne, Hb, Hs. rewrite Hne, Hb, Hs.
  unfold IsMarket, IsLimit; simpl.
  destruct (Valid (Price taker)) eqn:Hv; simpl; rewrite ?Hv; reflexivity.
Qed.

(** Different sides and a maker that buys or sells: the price test for a
    limit taker, then the product, and only then the fill of both orders
    and the trade. *)
Lemma Match_bid_ask (now : Time) (maker taker : Order.t) :
  Side maker <> Side taker ->
  Side maker = SideBuy \/ Side maker = SideSell ->
  Match now (mkStore maker taker) =
  let bid := bid_of maker taker in
  let ask := ask_of maker taker in
  if IsLimit taker
     && negb (GreaterThanOrEqual (Decimal_ (Price bid)) (Decimal_ (Price ask)))
  then (Returned None, mkStore maker taker)
  else
    let filledQuantity := Min (PendingQuantity bid) [PendingQuantity ask] in
    match Mul filledQuantity (Decimal_ (Price maker)) with
    | Some total =>
        (Returned
           (Some {| Trade.Symbol := Symbol maker;
                    Trade.Price := Decimal_ (Price maker);
                    Trade.Quantity := filledQuantity;
                    Trade.Total := total;
                    Trade.MakerOrderID := ID maker;
                    Trade.TakerOrderID := ID taker;
                    Trade.MakerID := MemberID maker;
                    Trade.TakerID := MemberID taker;
                    Trade.CreatedAt := now |}),
         mkStore (Fill maker filledQuantity) (Fill taker filledQuantity))
    | None =>
        (ExponentOverflow (exp filledQuantity + exp (Decimal_ (Price maker))),
         mkStore maker taker)
    end.
Proof.
  intros Hne Hside. unfold Match, bind, get, call_Mul, bid_of, ask_of; simpl.
  apply String.eqb_neq in Hne. rewrite Hne.
  unfold IsMarket, IsLimit; simpl.
  destruct Hside as [Hb | Hs]; [rewrite Hb | rewrite Hs]; simpl;
    (destruct (Valid (Price taker)) eqn:Hv; simpl; rewrite ?Hv; simpl;
     [destruct (GreaterThanOrEqual _ _); [| reflexivity] |];
     simpl; destruct (Mul _ _); reflexivity).
Qed.

(** [total_representable] says that [Mul] does not panic on the pair. *)
Lemma representable_Mul (maker taker : Order.t) :
  total_representable maker taker = true <->
  exists total,
    Mul (Min (PendingQuantity (bid_of maker taker))
             [PendingQuantity (ask_of maker taker)])
        (Decimal_ (Price maker)) = Some total.
Proof.
  unfold total_representable, Mul. cbv zeta.
  destruct (_ || _); simpl; split; intro H; eauto; try discriminate.
  destruct H as [total H]. discriminate.
Qed.

Lemma not_representable_Mul (maker taker : Order.t) :
  total_representable maker taker = false <->
  Mul (Min (PendingQuantity (bid_of maker taker))
           [PendingQuantity (ask_of maker taker)])
      (Decimal_ (Price maker)) = None.
Proof.
  unfold total_representable, Mul. cbv zeta.
  destruct (_ || _); simpl; split; intro H; auto; discriminate.
Qed.

Lemma Match_trade_inv (now : Time) (maker taker : Order.t)
    (trade : Trade.t) (s' : Store) :
  Match now (mkStore maker taker) = (Returned (Some trade), s') ->
  Side maker <> Side taker /\
  (Side maker = SideBuy \/ Side maker = SideSell) /\
  (IsLimit taker = true ->
   GreaterThanOrEqual (Decimal_ (Price (bid_of maker taker)))
                      (Decimal_ (Price (ask_of maker taker))) = true) /\
  let filledQuantity :=
    Min (PendingQuantity (bid_of maker taker))
        [PendingQuantity (ask_of maker taker)] in
  exists total,
    Mul filledQuantity (Decimal_ (Price maker)) = Some total /\
    trade = {| Trade.Symbol := Symbol maker;
               Trade.Price := Decimal_ (Price maker);
               Trade.Quantity := filledQuantity;
               Trade.Total := total;
               Trade.MakerOrderID := ID maker;
               Trade.TakerOrderID := ID taker;
               Trade.MakerID := MemberID maker;
               Trade.TakerID := MemberID taker;
               Trade.CreatedAt := now |} /\
    s' = mkStore (Fill maker filledQuantity) (Fill taker filledQuantity).
Proof.
  intro Hrun.
  destruct (string_dec (Side maker) (Side taker)) as [Heq | Hne].
  { rewrite (Match_same_side now maker taker Heq) in Hrun. discriminate. }
  destruct (string_dec (Side maker) SideBuy) as [Hb | Hnb].
  2: destruct (string_dec (Side maker) SideSell) as [Hs | Hns].
  3: { rewrite (Match_no_bid_ask now maker taker Hne Hnb Hns) in Hrun.
       discriminate. }
  1: assert (Hor : Side maker = SideBuy \/ Side maker = SideSell) by auto.
  2: assert (Hor : Side maker = SideBuy \/ Side maker = SideSell) by auto.
  all: rewrite (Match_bid_ask now maker taker Hne Hor) in Hrun;
       cbv zeta in Hrun.
  all: destruct (IsLimit taker); simpl andb in Hrun.
  all: destruct (GreaterThanOrEqual _ _) eqn:Hge; simpl negb in Hrun;
       cbv iota in Hrun; try discriminate.
  all: destruct (Mul _ _) as [total |] eqn:Hmul; try discriminate.
  all: injection Hrun as <- <-.
  all: split; [assumption | split; [assumption | split; [auto; discriminate |]]].
  all: exists total; auto.
Qed.

(** A limit taker trades exactly when the comparison of the two price
    payloads succeeds and the product can be formed. *)
Lemma limit_taker_trade_iff (now : Time) (maker taker : Order.t) :
  Side maker <> Side taker ->
  Side maker = SideBuy \/ Side maker = SideSell ->
  IsLimit taker = true ->
  (produces_trade now maker taker <->
   GreaterThanOrEqual (Decimal_ (Price (bid_of maker taker)))
                      (Decimal_ (Price (ask_of maker taker))) = true /\
   total_representable maker taker = true).
Proof.
  intros Hne Hside Hlimit. split.
  - intros (trade & s' & Htrade).
    apply Match_trade_inv in Htrade.
    destruct Htrade as (_ & _ & Hge & total & Hmul & _).
    split; [auto | apply representable_Mul; eauto].
  - intros [Hge Hrep]. apply representable_Mul in Hrep.
    destruct Hrep as [total Hmul].
    pose proof (Match_bid_ask now maker taker Hne Hside) as Hrun.
    cbv zeta in Hrun. rewrite Hlimit, Hge, Hmul in Hrun. simpl in Hrun.
    unfold produces_trade. eauto.
Qed.

(** Past the price test, a product that cannot be formed ends the call
    in the panic of [Mul], before anything is written. *)
Lemma Match_overflow (now : Time) (maker taker : Order.t) :
  Side maker <> Side taker ->
  Side maker = SideBuy \/ Side maker = SideSell ->
  (IsLimit taker = true ->
   GreaterThanOrEqual (Decimal_ (Price (bid_of maker taker)))
                      (Decimal_ (Price (ask_of maker taker))) = true) ->
  total_representable maker taker = false ->
  Match now (mkStore maker taker)
  = (ExponentOverflow
       (exp (Min (PendingQuantity (bid_of maker taker))
                 [PendingQuantity (ask_of maker taker)])
        + exp (Decimal_ (Price maker))),
     mkStore maker taker).
Proof.
  intros Hne Hside Hge Hrep. apply not_representable_Mul in Hrep.
  rewrite (Match_bid_ask now maker taker Hne Hside). cbv zeta.
  rewrite Hrep.
  destruct (IsLimit taker); [rewrite (Hge eq_refl) |]; reflexivity.
Qed.

(** C1, as stated, fails: a buy limit at 60 for 1e2147483647 meets a
    resting sell limit at 5e1; the bid's price is above the ask's, and yet
    there is no trade, because the product of the quantity and the maker's
    price has exponent 2147483648 and [Mul] panics. *)
Lemma limit_taker_overflow_counterexample :
  ~ (opposite_sides examples.sell_5e1_huge examples.buy_60_huge ->
     IsLimit examples.buy_60_huge = true ->
     (produces_trade 2000 examples.sell_5e1_huge examples.buy_60_huge <->
      (toQ (Decimal_ (Price (ask_of examples.sell_5e1_huge
                                    examples.buy_60_huge)))
       <= toQ (Decimal_ (Price (bid_of examples.sell_5e1_huge
                                       examples.buy_60_huge))))%Q)).
Proof.
  intro H.
  assert (Hopp : opposite_sides examples.sell_5e1_huge examples.buy_60_huge)
    by (right; split; reflexivity).
  destruct (H Hopp eq_refl) as [_ Hback].
  assert (Hle : (toQ (Decimal_ (Price (ask_of examples.sell_5e1_huge
                                              examples.buy_60_huge)))
                 <= toQ (Decimal_ (Price (bid_of examples.sell_5e1_huge
                                                 examples.buy_60_huge))))%Q).
  { cbv. discriminate. }
  destruct (Hback Hle) as (trade & s' & Hrun).
  assert (Hpanic : Match 2000 (mkStore examples.sell_5e1_huge
                                       examples.buy_60_huge)
                   = (ExponentOverflow 2147483648,
                      mkStore examples.sell_5e1_huge examples.buy_60_huge))
    by (vm_compute; reflexivity).
  rewrite Hpanic in Hrun. discriminate.
Qed.

(** C1, amended. With opposite sides and a limit taker, [Match] returns a
    trade exactly when the bid's price is at least the ask's price and the
    product of the quantity to fill and the maker's price can be formed.
    When the bid's price is below the ask's, [Match] returns no trade;
    when the prices cross and the product cannot be formed, it panics in
    [Mul]; in both cases both orders are as they were. *)
Theorem Match_limit_taker_crosses_iff (now : Time) (maker taker : Order.t) :
  opposite_sides maker taker ->
  IsLimit taker = true ->
  (produces_trade now maker taker <->
   (toQ (Decimal_ (Price (ask_of maker taker)))
    <= toQ (Decimal_ (Price (bid_of maker taker))))%Q /\
   total_representable maker taker = true) /\
  (~ (toQ (Decimal_ (Price (ask_of maker taker)))
      <= toQ (Decimal_ (Price (bid_of maker taker))))%Q ->
   Match now (mkStore maker taker) = (Returned None, mkStore maker taker)) /\
  ((toQ (Decimal_ (Price (ask_of maker taker)))
    <= toQ (Decimal_ (Price (bid_of maker taker))))%Q ->
   total_representable maker taker = false ->
   Match now (mkStore maker taker)
   = (ExponentOverflow
        (exp (Min (PendingQuantity (bid_of maker taker))
                  [PendingQuantity (ask_of maker taker)])
         + exp (Decimal_ (Price maker))),
      mkStore maker taker)).
Proof.
  intros Hopp Hlimit.
  pose proof (opposite_sides_neq _ _ Hopp) as Hne.
  pose proof (opposite_sides_maker _ _ Hopp) as Hside.
  split; [| split].
  - rewrite <- GreaterThanOrEqual_spec.
    apply limit_taker_trade_iff; assumption.
  - intro Hnle.
    rewrite (Match_bid_ask now maker taker Hne Hside). cbv zeta.
    rewrite Hlimit.
    destruct (GreaterThanOrEqual _ _) eqn:Hge; [| reflexivity].
    apply GreaterThanOrEqual_spec in Hge. contradiction.
  - intros Hle Hrep. apply GreaterThanOrEqual_spec in Hle.
    apply Match_overflow; auto.
Qed.

Lemma Match_limit_taker_crosses_iff_witness :
  opposite_sides examples.sell_50 examples.buy_51 /\
  IsLimit examples.buy_51 = true /\
  (produces_trade 2000 examples.sell_50 examples.buy_51 <->
   (toQ (Decimal_ (Price (ask_of examples.sell_50 examples.buy_51)))
    <= toQ (Decimal_ (Price (bid_of examples.sell_50 examples.buy_51))))%Q /\
   total_representable examples.sell_50 examples.buy_51 = true).
Proof.
  assert (Hopp : opposite_sides examples.sell_50 examples.buy_51)
    by (right; split; reflexivity).
  split; [exact Hopp | split; [reflexivity |]].
  exact (proj1 (Match_limit_taker_crosses_iff 2000 examples.sell_50
                  examples.buy_51 Hopp eq_refl)).
Defined.

(** C2, as stated, fails: a market buy for 1e2147483647 against a resting
    sell limit at 5e1 gets no trade; [Mul] panics on the exponent
    2147483648 of the total. *)
Lemma market_taker_overflow_counterexample :
  ~ (opposite_sides examples.sell_5e1_huge examples.market_buy_huge ->
     IsMarket examples.market_buy_huge = true ->
     produces_trade 2000 examples.sell_5e1_huge examples.market_buy_huge).
Proof.
  intro H.
  assert (Hopp : opposite_sides examples.sell_5e1_huge
                                examples.market_buy_huge)
    by (right; split; reflexivity).
  destruct (H Hopp eq_refl) as (trade & s' & Hrun).
  assert (Hpanic : Match 2000 (mkStore examples.sell_5e1_huge
                                       examples.market_buy_huge)
                   = (ExponentOverflow 2147483648,
                      mkStore examples.sell_5e1_huge
                              examples.market_buy_huge))
    by (vm_compute; reflexivity).
  rewrite Hpanic in Hrun. discriminate.
Qed.

(** C2, amended. With opposite sides and a market taker no price is
    compared: [Match] returns a trade whenever the product of the quantity
    to fill and the maker's price can be formed, and otherwise panics in
    [Mul] with both orders as they were. *)
Theorem Match_market_taker_trades (now : Time) (maker taker : Order.t) :
  opposite_sides maker taker ->
  IsMarket taker = true ->
  (produces_trade now maker taker <->
   total_representable maker taker = true) /\
  (total_representable maker taker = false ->
   Match now (mkStore maker taker)
   = (ExponentOverflow
        (exp (Min (PendingQuantity (bid_of maker taker))
                  [PendingQuantity (ask_of maker taker)])
         + exp (Decimal_ (Price maker))),
      mkStore maker taker)).
Proof.
  intros Hopp Hmarket.
  pose proof (opposite_sides_neq _ _ Hopp) as Hne.
  pose proof (opposite_sides_maker _ _ Hopp) as Hside.
  assert (Hnl : IsLimit taker = false).
  { unfold IsMarket in Hmarket. unfold IsLimit.
    apply negb_true_iff in Hmarket. exact Hmarket. }
  split.
  - split.
    + intros (trade & s' & Htrade). apply Match_trade_inv in Htrade.
      destruct Htrade as (_ & _ & _ & total & Hmul & _).
      apply representable_Mul. eauto.
    + intro Hrep. apply representable_Mul in Hrep.
      destruct Hrep as [total Hmul].
      pose proof (Match_bid_ask now maker taker Hne Hside) as Hrun.
      cbv zeta in Hrun. rewrite Hnl, Hmul in Hrun. simpl in Hrun.
      unfold produces_trade. eauto.
  - intro Hrep. apply Match_overflow; auto.
    rewrite Hnl. discriminate.
Qed.

Lemma Match_market_taker_trades_witness :
  opposite_sides examples.bid_100 examples.market_sell /\
  IsMarket examples.market_sell = true /\
  total_representable examples.bid_100 examples.market_sell = true /\
  produces_trade 2000 examples.bid_100 examples.market_sell.
Proof.
  assert (Hopp : opposite_sides examples.bid_100 examples.market_sell)
    by (left; split; reflexivity).
  split; [exact Hopp | split; [reflexivity | split; [reflexivity |]]].
  exact (proj2 (proj1 (Match_market_taker_trades 2000 examples.bid_100
                         examples.market_sell Hopp eq_refl)) eq_refl).
Defined.

(** C8. With equal sides, [Match] ends in the fatal log entry that names
    the side and both IDs; it returns no trade, and both orders are as
    they were. *)
Theorem Match_same_side_is_fatal (now : Time) (maker taker : Order.t) :
  Side maker = Side taker ->
  Match now (mkStore maker taker) =
  (Fatal "[oceanbook.orderbook] match order with same side %s, %d, %d"
         [arg_string (Side maker); arg_uint (ID maker); arg_uint (ID taker)],
   mkStore maker taker) /\
  ~ produces_trade now maker taker.
Proof.
  intro Heq. pose proof (Match_same_side now maker taker Heq) as Hrun.
  split; [exact Hrun |].
  intros (trade & s' & Htrade). rewrite Hrun in Htrade. discriminate.
Qed.

Lemma Match_same_side_is_fatal_witness :
  Side examples.sell_50 = Side examples.sell_51 /\
  snd (Match 2000 (mkStore examples.sell_50 examples.sell_51)) =
  mkStore examples.sell_50 examples.sell_51 /\
  ~ produces_trade 2000 examples.sell_50 examples.sell_51.
Proof.
  split; [reflexivity |].
  pose proof (Match_same_side_is_fatal 2000 examples.sell_50
                examples.sell_51 eq_refl) as [Hrun Hno].
  split; [rewrite Hrun; reflexivity | exact Hno].
Defined.

(** C3. A trade returned by [Match] has as quantity the minimum of the
    bid's and the ask's pending quantities (quantity minus filled
    quantity), as price the maker's price, as total the product of its
    quantity and its price, and carries the order IDs and member IDs of
    the maker and the taker. *)
Theorem Match_trade_fields (now : Time) (maker taker : Order.t)
    (trade : Trade.t) (s' : Store) :
  Match now (mkStore maker taker) = (Returned (Some trade), s') ->
  let bid := bid_of maker taker in
  let ask := ask_of maker taker in
  Trade.Quantity trade = Min (PendingQuantity bid) [PendingQuantity ask] /\
  (toQ (Trade.Quantity trade) ==
   Qmin (toQ (Quantity bid) - toQ (FilledQuantity bid))
        (toQ (Quantity ask) - toQ (FilledQuantity ask)))%Q /\
  Trade.Price trade = Decimal_ (Price maker) /\
  Mul (Trade.Quantity trade) (Trade.Price trade) = Some (Trade.Total trade) /\
  (toQ (Trade.Total trade) ==
   toQ (Trade.Quantity trade) * toQ (Trade.Price trade))%Q /\
  Trade.MakerOrderID trade = ID maker /\
  Trade.TakerOrderID trade = ID taker /\
  Trade.MakerID trade = MemberID maker /\
  Trade.TakerID trade = MemberID taker.
Proof.
  intros Hrun bid ask.
  apply Match_trade_inv in Hrun.
  destruct Hrun as (_ & _ & _ & total & Hmul & -> & _).
  cbn [Trade.Quantity Trade.Price Trade.Total Trade.MakerOrderID
       Trade.TakerOrderID Trade.MakerID Trade.TakerID].
  split; [reflexivity | split].
  { rewrite toQ_Min_pair. unfold PendingQuantity.
    rewrite !toQ_Sub. reflexivity. }
  split; [reflexivity | split; [exact Hmul | split]].
  { apply toQ_Mul. exact Hmul. }
  auto.
Qed.

Lemma Match_trade_fields_witness :
  exists trade s',
    Match 2000 (mkStore examples.sell_50 examples.buy_50_5)
    = (Returned (Some trade), s') /\
    Trade.Price trade = New 50 0 /\
    Trade.Quantity trade = New 400 (-2) /\
    Trade.Total trade = New 20000 (-2).
Proof.
  eexists. eexists. split; [cbv; reflexivity |].
  match goal with
  | |- Trade.Price ?t = _ /\ _ =>
      set (trade := t);
      pose proof (Match_trade_fields 2000 examples.sell_50 examples.buy_50_5
                    trade _ eq_refl) as (Hq & _ & Hp & Ht & _)
  end.
  split; [rewrite Hp; reflexivity | split; [rewrite Hq; reflexivity |]].
  assert (E : Mul (Trade.Quantity trade) (Trade.Price trade)
              = Some (New 20000 (-2))) by (rewrite Hp, Hq; reflexivity).
  congruence.
Defined.

(** C4. When [Match] returns a trade, the filled quantity of the maker and
    that of the taker have each grown by the trade's quantity, and no
    other field of either order has changed. *)
Theorem Match_fills_both (now : Time) (maker taker : Order.t)
    (trade : Trade.t) (s' : Store) :
  Match now (mkStore maker taker) = (Returned (Some trade), s') ->
  FilledQuantity (at_maker s')
  = Add (FilledQuantity maker) (Trade.Quantity trade) /\
  FilledQuantity (at_taker s')
  = Add (FilledQuantity taker) (Trade.Quantity trade) /\
  (toQ (FilledQuantity (at_maker s')) ==
   toQ (FilledQuantity maker) + toQ (Trade.Quantity trade))%Q /\
  (toQ (FilledQuantity (at_taker s')) ==
   toQ (FilledQuantity taker) + toQ (Trade.Quantity trade))%Q /\
  same_but_filled maker (at_maker s') /\
  same_but_filled taker (at_taker s').
Proof.
  intro Hrun.
  apply Match_trade_inv in Hrun.
  destruct Hrun as (_ & _ & _ & total & _ & -> & ->).
  simpl. split; [reflexivity | split; [reflexivity |]].
  split; [apply toQ_Add | split; [apply toQ_Add |]].
  split; repeat split.
Qed.

Lemma Match_fills_both_witness :
  exists trade s',
    Match 2000 (mkStore examples.bid_100 examples.market_sell)
    = (Returned (Some trade), s') /\
    FilledQuantity (at_maker s') = New 6 0 /\
    FilledQuantity (at_taker s') = New 4 0 /\
    same_but_filled examples.bid_100 (at_maker s') /\
    same_but_filled examples.market_sell (at_taker s').
Proof.
  eexists. eexists. split; [cbv; reflexivity |].
  match goal with
  | |- FilledQuantity (at_maker ?s') = _ /\ _ =>
      pose proof (Match_fills_both 2000 examples.bid_100 examples.market_sell
                    _ s' eq_refl) as (Hm & Ht & _ & _ & Hsm & Hst)
  end.
  split; [rewrite Hm; reflexivity |].
  split; [rewrite Ht; reflexivity |].
  split; [exact Hsm | exact Hst].
Defined.

Lemma fill_invariant_spec (o : Order.t) :
  fill_invariant o = true <->
  (0 <= toQ (FilledQuantity o) /\ toQ (FilledQuantity o) <= toQ (Quantity o))%Q.
Proof.
  unfold fill_invariant.
  rewrite andb_true_iff, GreaterThanOrEqual_spec, LessThanOrEqual_spec.
  rewrite toQ_Zero. reflexivity.
Qed.

(** A fill by the smaller pending quantity keeps both orders within
    their quantities. *)
Lemma Fill_keeps_invariant (o other : Order.t) (q : Decimal) :
  fill_invariant o = true ->
  fill_invariant other = true ->
  q = Min (PendingQuantity o) [PendingQuantity other] \/
  q = Min (PendingQuantity other) [PendingQuantity o] ->
  fill_invariant (Fill o q) = true.
Proof.
  intros Ho Hother Hq.
  apply fill_invariant_spec in Ho, Hother. apply fill_invariant_spec.
  simpl. rewrite toQ_Add.
  assert (Hmin : (toQ q == Qmin (toQ (Quantity o) - toQ (FilledQuantity o))
                           (toQ (Quantity other) - toQ (FilledQuantity other)))%Q).
  { destruct Hq as [-> | ->]; rewrite toQ_Min_pair; unfold PendingQuantity;
      rewrite !toQ_Sub; [reflexivity | apply Q.min_comm]. }
  pose proof (Q.le_min_l (toQ (Quantity o) - toQ (FilledQuantity o))
                (toQ (Quantity other) - toQ (FilledQuantity other))) as Hl.
  assert (Hnn : (0 <= Qmin (toQ (Quantity o) - toQ (FilledQuantity o))
                       (toQ (Quantity other) - toQ (FilledQuantity other)))%Q).
  { apply Q.min_glb; lra. }
  rewrite Hmin. split; lra.
Qed.

Lemma Match_fill_keeps_invariant (maker taker : Order.t) :
  fill_invariant maker = true ->
  fill_invariant taker = true ->
  let filledQuantity :=
    Min (PendingQuantity (bid_of maker taker))
        [PendingQuantity (ask_of maker taker)] in
  fill_invariant (Fill maker filledQuantity) = true /\
  fill_invariant (Fill taker filledQuantity) = true.
Proof.
  intros Hm Ht. unfold bid_of, ask_of.
  destruct (Side maker =? SideBuy); simpl; split.
  - apply Fill_keeps_invariant with (other := taker); auto.
  - apply Fill_keeps_invariant with (other := maker); auto.
  - apply Fill_keeps_invariant with (other := taker); auto.
  - apply Fill_keeps_invariant with (other := maker); auto.
Qed.

(** C5. If both orders satisfy [0 <= filled_quantity <= quantity] before
    [Match], both satisfy it afterwards, whether the call returns a trade,
    returns none or does not return. *)
Theorem Match_preserves_fill_invariant (now : Time) (maker taker : Order.t) :
  fill_invariant maker = true ->
  fill_invariant taker = true ->
  fill_invariant (at_maker (snd (Match now (mkStore maker taker)))) = true /\
  fill_invariant (at_taker (snd (Match now (mkStore maker taker)))) = true.
Proof.
  intros Hm Ht.
  destruct (string_dec (Side maker) (Side taker)) as [Heq | Hne].
  { rewrite (Match_same_side now maker taker Heq). simpl. auto. }
  destruct (string_dec (Side maker) SideBuy) as [Hb | Hnb].
  2: destruct (string_dec (Side maker) SideSell) as [Hs | Hns].
  3: { rewrite (Match_no_bid_ask now maker taker Hne Hnb Hns). simpl. auto. }
  1: assert (Hor : Side maker = SideBuy \/ Side maker = SideSell) by auto.
  2: assert (Hor : Side maker = SideBuy \/ Side maker = SideSell) by auto.
  all: rewrite (Match_bid_ask now maker taker Hne Hor); cbv zeta.
  all: destruct (IsLimit taker && negb _); [simpl; auto |].
  all: destruct (Mul _ _); [| simpl; auto].
  all: cbn [snd at_maker at_taker].
  all: apply Match_fill_keeps_invariant; assumption.
Qed.

Lemma Match_preserves_fill_invariant_witness :
  fill_invariant examples.sell_50 = true /\
  fill_invariant examples.buy_51 = true /\
  fill_invariant
    (at_maker (snd (Match 2000 (mkStore examples.sell_50 examples.buy_51))))
  = true /\
  fill_invariant
    (at_taker (snd (Match 2000 (mkStore examples.sell_50 examples.buy_51))))
  = true.
Proof.
  split; [reflexivity | split; [reflexivity |]].
  exact (Match_preserves_fill_invariant 2000 examples.sell_50
           examples.buy_51 eq_refl eq_refl).
Defined.

(** The scenarios of the crossing rule, run. *)
Example buy_50_5_against_sell_51 :
  Match 2000 (mkStore examples.sell_51 examples.buy_50_5)
  = (Returned None, mkStore examples.sell_51 examples.buy_50_5).
Proof. reflexivity. Qed.

Example buy_51_against_sell_50 :
  exists trade s',
    Match 2000 (mkStore examples.sell_50 examples.buy_51)
    = (Returned (Some trade), s') /\
    Trade.Price trade = New 50 0 /\
    Trade.Quantity trade = New 400 (-2) /\
    FilledQuantity (at_maker s') = New 650 (-2) /\
    FilledQuantity (at_taker s') = New 400 (-2) /\
    Filled (at_taker s') = true.
Proof. eexists. eexists. split; [cbv; reflexivity |]. repeat split. Qed.

Example market_sell_against_bid_100 :
  exists trade s',
    Match 2000 (mkStore examples.bid_100 examples.market_sell)
    = (Returned (Some trade), s') /\
    Trade.Price trade = New 100 0 /\
    Trade.Quantity trade = New 4 0 /\
    Trade.Total trade = New 400 0 /\
    Filled (at_maker s') = true /\
    PendingQuantity (at_taker s') = New 6 0.
Proof. eexists. eexists. split; [cbv; reflexivity |]. repeat split. Qed.

End Match_facts.

(** * The order [Comparator] puts on the keys of one side *)
Module Comparator_facts.

Import decimal matching decimal_facts.

Local Open Scope string_scope.

(** Priority is a strict order. *)
Lemma outranks_asym (a b : Key.t) : outranks a b -> ~ outranks b a.
Proof.
  unfold outranks. intros [Hp | [Hp [Ht | [Ht Hi]]]] [Hq | [Hq [Hu | [Hu Hj]]]];
    try lra; lia.
Qed.

Lemma outranks_trans (a b c : Key.t) :
  outranks a b -> outranks b c -> outranks a c.
Proof.
  unfold outranks. intros [Hp | [Hp Ht]] [Hq | [Hq Hu]].
  - left. lra.
  - left. lra.
  - left. lra.
  - right. split; [lra |].
    destruct Ht as [Ht | [Ht Hi]], Hu as [Hu | [Hu Hj]];
      [left; lia | left; lia | left; lia | right; split; lia].
Qed.

(** On two keys of one side with different IDs, [Comparator] returns 1 when
    the first has priority and -1 when the second has. *)
Lemma Comparator_distinct (a b : Key.t) :
  Key.Side a = Key.Side b ->
  Key.ID a <> Key.ID b ->
  (Comparator a b = Returned 1 /\ outranks a b) \/
  (Comparator a b = Returned (-1) /\ outranks b a).
Proof.
  intros Hside Hid. unfold Comparator, outranks, price_rank.
  rewrite Hside, String.eqb_refl. simpl.
  apply N.eqb_neq in Hid as Hidb. rewrite Hidb.
  unfold LessThan, GreaterThan, time.Before, time.After,
    utils.UInt64Comparator.
  destruct (Key.Side b =? SideSell), (Key.Side b =? SideBuy); simpl;
    try (cmp_cases (Decimal_ (Key.Price a)) (Decimal_ (Key.Price b)));
    try (left; split; [reflexivity | left; lra]);
    try (right; split; [reflexivity | left; lra]).
  all: destruct (Z.ltb_spec (Key.CreatedAt a) (Key.CreatedAt b)) as [Hlt | Hge];
    [left; split; [reflexivity | right; split; [lra | left; lia]] |].
  all: destruct (Z.ltb_spec (Key.CreatedAt b) (Key.CreatedAt a)) as [Hlt | Hle];
    [right; split; [reflexivity | right; split; [lra | left; lia]] |].
  all: destruct (N.ltb_spec (Key.ID b) (Key.ID a)) as [Hilt | Hige];
    [right; split; [reflexivity | right; split; [lra | right; split; lia]] |].
  all: destruct (N.ltb_spec (Key.ID a) (Key.ID b)) as [Hilt | Hile];
    [left; split; [reflexivity | right; split; [lra | right; split; lia]] |].
  all: lia.
Qed.

Lemma ranks_above_iff (a b : Key.t) :
  Key.Side a = Key.Side b ->
  Key.ID a <> Key.ID b ->
  (ranks_above a b <-> outranks a b).
Proof.
  intros Hside Hid. unfold ranks_above.
  destruct (Comparator_distinct a b Hside Hid) as [[Hab Ho] | [Hab Ho]];
    destruct (Comparator_distinct b a (eq_sym Hside) (not_eq_sym Hid))
      as [[Hba Ho'] | [Hba Ho']];
    rewrite Hab, Hba; split; intro H;
    try (destruct H; discriminate);
    try (split; reflexivity);
    try assumption;
    try (exfalso; eapply outranks_asym; eassumption).
Qed.

Lemma Comparator_same_ID (a b : Key.t) :
  Key.Side a = Key.Side b ->
  Key.ID a = Key.ID b ->
  Comparator a b = Returned 0.
Proof.
  intros Hside Hid. unfold Comparator.
  rewrite Hside, String.eqb_refl, Hid, N.eqb_refl. reflexivity.
Qed.

(** On two keys of one side [Comparator] returns -1, 0 or 1, the opposite
    number with the arguments swapped, and 0 exactly for equal IDs. *)
Lemma Comparator_antisym (a b : Key.t) :
  Key.Side a = Key.Side b ->
  exists r : Z,
    Comparator a b = Returned r /\
    Comparator b a = Returned (- r) /\
    (r = -1 \/ r = 0 \/ r = 1) /\
    (r = 0 <-> Key.ID a = Key.ID b).
Proof.
  intro Hside.
  destruct (N.eq_dec (Key.ID a) (Key.ID b)) as [Hid | Hid].
  - exists 0. rewrite (Comparator_same_ID a b Hside Hid).
    rewrite (Comparator_same_ID b a (eq_sym Hside) (eq_sym Hid)).
    repeat split; auto.
  - destruct (Comparator_distinct a b Hside Hid) as [[Hab Ho] | [Hab Ho]];
      destruct (Comparator_distinct b a (eq_sym Hside) (not_eq_sym Hid))
        as [[Hba Ho'] | [Hba Ho']];
      try (exfalso; eapply outranks_asym; eassumption).
    + exists 1. rewrite Hab, Hba. repeat split; auto; try discriminate.
      intro; contradiction.
    + exists (-1). rewrite Hab, Hba. repeat split; auto; try discriminate.
      intro; contradiction.
Qed.

(** C6. On keys of one side [Comparator] is a strict total order: it
    returns the opposite number with the arguments swapped and 0 only for
    equal IDs; of two keys with different IDs exactly one is above the
    other; and it is transitive, both upwards and downwards, on keys
    that their IDs tell apart. *)
Theorem Comparator_strict_total_order (a b c : Key.t) :
  Key.Side a = Key.Side b ->
  Key.Side b = Key.Side c ->
  (exists r : Z,
     Comparator a b = Returned r /\
     Comparator b a = Returned (- r) /\
     (r = -1 \/ r = 0 \/ r = 1) /\
     (r = 0 <-> Key.ID a = Key.ID b)) /\
  (Key.ID a <> Key.ID b ->
   (ranks_above a b /\ ~ ranks_above b a) \/
   (ranks_above b a /\ ~ ranks_above a b)) /\
  ((Key.ID a = Key.ID c -> a = c) ->
   (Comparator a b = Returned 1 -> Comparator b c = Returned 1 ->
    Comparator a c = Returned 1) /\
   (Comparator a b = Returned (-1) -> Comparator b c = Returned (-1) ->
    Comparator a c = Returned (-1))).
Proof.
  intros Hab Hbc.
  assert (Hac : Key.Side a = Key.Side c) by congruence.
  split; [apply Comparator_antisym; assumption | split].
  - intro Hid.
    pose proof (ranks_above_iff a b Hab Hid) as Hiff.
    pose proof (ranks_above_iff b a (eq_sym Hab) (not_eq_sym Hid)) as Hiff'.
    destruct (Comparator_distinct a b Hab Hid) as [[_ Ho] | [_ Ho]].
    + left. split; [apply Hiff; assumption |].
      intro H. apply Hiff' in H. eapply outranks_asym; eassumption.
    + right. split; [apply Hiff'; assumption |].
      intro H. apply Hiff in H. eapply outranks_asym; eassumption.
  - intro Hkey.
    assert (Hne : forall x y r, Comparator x y = Returned r -> r <> 0 ->
                                Key.Side x = Key.Side y ->
                                Key.ID x <> Key.ID y).
    { intros x y r Hr Hr0 Hs Hid.
      rewrite (Comparator_same_ID x y Hs Hid) in Hr. congruence. }
    split; intros H1 H2.
    + pose proof (Hne _ _ _ H1 ltac:(discriminate) Hab) as Iab.
      pose proof (Hne _ _ _ H2 ltac:(discriminate) Hbc) as Ibc.
      destruct (Comparator_distinct a b Hab Iab) as [[_ Oab] | [E _]];
        [| congruence].
      destruct (Comparator_distinct b c Hbc Ibc) as [[_ Obc] | [E _]];
        [| congruence].
      pose proof (outranks_trans _ _ _ Oab Obc) as Oac.
      destruct (N.eq_dec (Key.ID a) (Key.ID c)) as [Iac | Iac].
      * rewrite <- (Hkey Iac) in Obc.
        exfalso. exact (outranks_asym _ _ Oab Obc).
      * destruct (Comparator_distinct a c Hac Iac) as [[E _] | [_ Oca]];
          [exact E |].
        exfalso. exact (outranks_asym _ _ Oac Oca).
    + pose proof (Hne _ _ _ H1 ltac:(discriminate) Hab) as Iab.
      pose proof (Hne _ _ _ H2 ltac:(discriminate) Hbc) as Ibc.
      destruct (Comparator_distinct a b Hab Iab) as [[E _] | [_ Oba]];
        [congruence |].
      destruct (Comparator_distinct b c Hbc Ibc) as [[E _] | [_ Ocb]];
        [congruence |].
      pose proof (outranks_trans _ _ _ Ocb Oba) as Oca.
      destruct (N.eq_dec (Key.ID a) (Key.ID c)) as [Iac | Iac].
      * rewrite <- (Hkey Iac) in Ocb.
        exfalso. exact (outranks_asym _ _ Oba Ocb).
      * destruct (Comparator_distinct a c Hac Iac) as [[_ Oac] | [E _]];
          [| exact E].
        exfalso. exact (outranks_asym _ _ Oac Oca).
Qed.

Lemma Comparator_strict_total_order_witness :
  Comparator (examples.key 1 SideBuy 101 7) (examples.key 2 SideBuy 100 5)
  = Returned 1 /\
  Comparator (examples.key 2 SideBuy 100 5) (examples.key 3 SideBuy 100 6)
  = Returned 1 /\
  Comparator (examples.key 1 SideBuy 101 7) (examples.key 3 SideBuy 100 6)
  = Returned 1.
Proof.
  split; [reflexivity | split; [reflexivity |]].
  refine (proj1 (proj2 (proj2
            (Comparator_strict_total_order
               (examples.key 1 SideBuy 101 7) (examples.key 2 SideBuy 100 5)
               (examples.key 3 SideBuy 100 6) eq_refl eq_refl)) _)
            eq_refl eq_refl).
  simpl. intro H. discriminate H.
Defined.

(** C7. On two keys of one side with different IDs [Comparator] follows
    price-time priority: among sells the strictly lower price is above,
    among buys the strictly higher price is above; at equal prices the
    earlier creation time is above; at equal prices and creation times
    the lower ID is above. *)
Theorem Comparator_price_time_priority (a b : Key.t) :
  Key.Side a = Key.Side b ->
  Key.ID a <> Key.ID b ->
  (Key.Side a = SideSell ->
   (toQ (Decimal_ (Key.Price a)) < toQ (Decimal_ (Key.Price b)))%Q ->
   ranks_above a b) /\
  (Key.Side a = SideBuy ->
   (toQ (Decimal_ (Key.Price b)) < toQ (Decimal_ (Key.Price a)))%Q ->
   ranks_above a b) /\
  ((toQ (Decimal_ (Key.Price a)) == toQ (Decimal_ (Key.Price b)))%Q ->
   Key.CreatedAt a < Key.CreatedAt b ->
   ranks_above a b) /\
  ((toQ (Decimal_ (Key.Price a)) == toQ (Decimal_ (Key.Price b)))%Q ->
   Key.CreatedAt a = Key.CreatedAt b ->
   (Key.ID a < Key.ID b)%N ->
   ranks_above a b).
Proof.
  intros Hside Hid.
  pose proof (ranks_above_iff a b Hside Hid) as Hiff.
  assert (Htie : (toQ (Decimal_ (Key.Price a)) == toQ (Decimal_ (Key.Price b)))%Q ->
                 (price_rank a == price_rank b)%Q).
  { intro Heq. unfold price_rank. rewrite <- Hside.
    destruct (Key.Side a =? SideSell); [lra |].
    destruct (Key.Side a =? SideBuy); lra. }
  split; [| split; [| split]].
  - intros Hsell Hlt. apply Hiff. left. unfold price_rank.
    rewrite <- Hside, Hsell. simpl. lra.
  - intros Hbuy Hlt. apply Hiff. left. unfold price_rank.
    rewrite <- Hside, Hbuy. simpl. lra.
  - intros Heq Hlt. apply Hiff. right. split; [auto | left; assumption].
  - intros Heq Ht Hlt. apply Hiff. right. split; [auto | right; auto].
Qed.

Lemma Comparator_price_time_priority_witness :
  ranks_above (examples.key 1 SideSell 50 7) (examples.key 2 SideSell 51 5) /\
  ranks_above (examples.key 2 SideBuy 50 5) (examples.key 1 SideBuy 50 7).
Proof.
  split.
  - refine (proj1 (Comparator_price_time_priority
                     (examples.key 1 SideSell 50 7)
                     (examples.key 2 SideSell 51 5) eq_refl _)
                  eq_refl eq_refl).
    simpl. intro H. discriminate H.
  - refine (proj1 (proj2 (proj2 (Comparator_price_time_priority
                     (examples.key 2 SideBuy 50 5)
                     (examples.key 1 SideBuy 50 7) eq_refl _)))
                  eq_refl eq_refl).
    simpl. intro H. discriminate H.
Defined.

End Comparator_facts.

(** * The key of an order *)
Module Key_facts.

Import decimal matching.

(** The key carries the order's ID, side, price and creation time; its
    stop price is the zero value, whatever the order's stop price is. *)
Lemma Key_fields (o : Order.t) :
  Key.ID (Order.Key o) = Order.ID o /\
  Key.Side (Order.Key o) = Order.Side o /\
  Key.Price (Order.Key o) = Order.Price o /\
  Key.CreatedAt (Order.Key o) = Order.CreatedAt o /\
  Key.StopPrice (Order.Key o) = null_zero_value.
Proof. repeat split. Qed.

(** C9. The key of a sell stop order with stop price 90 has no stop
    price: [Key] leaves the field at its zero value, so the key's stop
    price differs from the order's. *)
Theorem Key_drops_StopPrice :
  Order.StopPrice examples.sell_stop_90 = mkNullDecimal (New 90 0) true /\
  Key.StopPrice (Order.Key examples.sell_stop_90)
  = mkNullDecimal zero_value false /\
  Key.StopPrice (Order.Key examples.sell_stop_90)
  <> Order.StopPrice examples.sell_stop_90.
Proof.
  split; [reflexivity | split; [reflexivity |]].
  simpl. intro H. discriminate H.
Qed.

(** Hence [StopComparator] on the keys of two orders never sees their stop
    prices: it falls through to creation time and ID. *)
Lemma StopComparator_on_keys (o1 o2 : Order.t) :
  Order.Side o1 = Order.Side o2 ->
  Order.ID o1 <> Order.ID o2 ->
  StopComparator (Order.Key o1) (Order.Key o2) =
  if time.Before (Order.CreatedAt o1) (Order.CreatedAt o2) then Returned 1
  else if time.After (Order.CreatedAt o1) (Order.CreatedAt o2)
       then Returned (-1)
       else Returned (utils.UInt64Comparator (Order.ID o1) (Order.ID o2) * -1).
Proof.
  intros Hside Hid. unfold StopComparator. simpl.
  rewrite Hside, String.eqb_refl. simpl.
  apply N.eqb_neq in Hid. rewrite Hid.
  rewrite !andb_false_r. reflexivity.
Qed.

End Key_facts.

(** * A maker without a valid price *)
Module Market_maker_facts.

Import decimal matching matching.Order decimal_facts Match_facts.

Local Open Scope Q_scope.




End Market_maker_facts.

(** * The order model: [Filled], [PendingQuantity] and [Fill] together *)
Module Order_facts.

Import decimal matching matching.Order decimal_facts Match_facts.

Local Open Scope Q_scope.

Lemma Filled_spec (o : Order.t) :
  Filled o = true <-> toQ (Quantity o) == toQ (FilledQuantity o).
Proof. unfold Filled. apply Equal_spec. Qed.

Lemma toQ_PendingQuantity (o : Order.t) :
  toQ (PendingQuantity o) == toQ (Quantity o) - toQ (FilledQuantity o).
Proof. unfold PendingQuantity. apply toQ_Sub. Qed.

Lemma Filled_Fill_pending (o : Order.t) :
  Filled (Fill o (PendingQuantity o)) = true.
Proof.
  apply Filled_spec. simpl. rewrite toQ_Add, toQ_PendingQuantity. ring.
Qed.

(** [Filled] compares numbers, not representations: an order is filled
    exactly when nothing is pending, whatever the exponents of its two
    quantities. *)
Theorem Filled_iff_nothing_pending (o : Order.t) :
  Filled o = true <-> toQ (PendingQuantity o) == 0.
Proof.
  rewrite Filled_spec, toQ_PendingQuantity. split; intro H; lra.
Qed.

(** Within [0 <= filled_quantity <= quantity] the pending quantity lies
    between zero and the quantity, and is positive unless the order is
    filled. *)
Theorem PendingQuantity_bounds (o : Order.t) :
  fill_invariant o = true ->
  0 <= toQ (PendingQuantity o) /\
  toQ (PendingQuantity o) <= toQ (Quantity o) /\
  (Filled o = false -> 0 < toQ (PendingQuantity o)).
Proof.
  intro Hinv. apply fill_invariant_spec in Hinv.
  pose proof (Filled_spec o) as Hf.
  rewrite toQ_PendingQuantity.
  split; [lra | split; [lra |]].
  intro Hnot.
  destruct (Qlt_le_dec 0 (toQ (Quantity o) - toQ (FilledQuantity o)))
    as [Hpos | Hle]; [assumption |].
  assert (Hz : toQ (Quantity o) == toQ (FilledQuantity o)) by lra.
  apply Hf in Hz. congruence.
Qed.

Lemma PendingQuantity_bounds_witness :
  fill_invariant examples.sell_50 = true /\
  0 <= toQ (PendingQuantity examples.sell_50) /\
  toQ (PendingQuantity examples.sell_50) <= toQ (Quantity examples.sell_50) /\
  (Filled examples.sell_50 = false ->
   0 < toQ (PendingQuantity examples.sell_50)).
Proof.
  split; [reflexivity |].
  exact (PendingQuantity_bounds examples.sell_50 eq_refl).
Defined.

(** [Fill] lowers the pending quantity by the amount filled, two fills add
    up, and a fill by the pending quantity leaves the order filled. *)
Theorem Fill_PendingQuantity (o : Order.t) (q q' : Decimal) :
  toQ (PendingQuantity (Fill o q)) == toQ (PendingQuantity o) - toQ q /\
  toQ (FilledQuantity (Fill (Fill o q) q'))
  == toQ (FilledQuantity (Fill o (Add q q'))) /\
  Filled (Fill o (PendingQuantity o)) = true.
Proof.
  split; [| split].
  - unfold PendingQuantity. simpl. rewrite !toQ_Sub, toQ_Add. ring.
  - simpl. rewrite !toQ_Add. ring.
  - apply Filled_Fill_pending.
Qed.

End Order_facts.

(** * More on [Match]: how a call ends, and what a trade leaves behind *)
Module Matching_facts.

Import decimal matching matching.Order decimal_facts Match_facts Order_facts.

Local Open Scope string_scope.

Ltac break_hyps :=
  repeat match goal with
         | H : exists _, _ |- _ => destruct H
         | H : _ /\ _ |- _ => destruct H
         | H : _ \/ _ |- _ => destruct H
         end;
  try discriminate; try contradiction; try congruence.

Lemma side_cases (maker taker : Order.t) :
  Side maker = Side taker \/
  (Side maker <> Side taker /\ Side maker <> SideBuy /\ Side maker <> SideSell) \/
  (Side maker <> Side taker /\ (Side maker = SideBuy \/ Side maker = SideSell)).
Proof.
  destruct (string_dec (Side maker) (Side taker)) as [Heq | Hne]; [auto |].
  destruct (string_dec (Side maker) SideBuy) as [Hb | Hnb]; [auto |].
  destruct (string_dec (Side maker) SideSell) as [Hs | Hns]; auto.
Qed.

(** With different sides and a maker that buys or sells, a call returns
    no trade, returns a trade, or panics in [Mul]. *)
Lemma Match_bid_ask_cases (now : Time) (maker taker : Order.t) :
  Side maker <> Side taker ->
  Side maker = SideBuy \/ Side maker = SideSell ->
  Match now (mkStore maker taker) = (Returned None, mkStore maker taker) \/
  (exists trade s',
     Match now (mkStore maker taker) = (Returned (Some trade), s')) \/
  (Match now (mkStore maker taker)
   = (ExponentOverflow
        (exp (Min (PendingQuantity (bid_of maker taker))
                  [PendingQuantity (ask_of maker taker)])
         + exp (Decimal_ (Price maker))),
      mkStore maker taker) /\
   total_representable maker taker = false /\
   (IsLimit taker = true ->
    GreaterThanOrEqual (Decimal_ (Price (bid_of maker taker)))
                       (Decimal_ (Price (ask_of maker taker))) = true)).
Proof.
  intros Hne Hside.
  rewrite (Match_bid_ask now maker taker Hne Hside). cbv zeta.
  destruct (IsLimit taker && negb _) eqn:Htest; [auto |].
  right. destruct (Mul _ _) as [total |] eqn:Hmul; [left; eauto |].
  right. split; [reflexivity | split].
  - apply not_representable_Mul. exact Hmul.
  - intro Hl. rewrite Hl in Htest. simpl in Htest.
    apply negb_false_iff in Htest. exact Htest.
Qed.

(** How a call of [Match] ends.  Equal sides: the fatal log entry.
    Different sides with a maker's side that is neither "buy" nor "sell":
    a nil dereference.  Different sides with a maker that buys or sells,
    whatever the taker's side: a return, or the panic of [Mul], and this
    one only past the price test and on a product that cannot be formed.
    A call that does not return has written nothing. *)
Theorem Match_outcome_by_sides (now : Time) (maker taker : Order.t) :
  (Side maker = Side taker <->
   exists format args,
     fst (Match now (mkStore maker taker)) = Fatal format args) /\
  (Side maker <> Side taker /\ Side maker <> SideBuy /\ Side maker <> SideSell
   <-> fst (Match now (mkStore maker taker)) = NilDereference) /\
  (Side maker <> Side taker /\ (Side maker = SideBuy \/ Side maker = SideSell)
   <-> (exists r, fst (Match now (mkStore maker taker)) = Returned r) \/
       (exists e, fst (Match now (mkStore maker taker)) = ExponentOverflow e)) /\
  (forall e,
     fst (Match now (mkStore maker taker)) = ExponentOverflow e ->
     total_representable maker taker = false /\
     (IsLimit taker = true ->
      GreaterThanOrEqual (Decimal_ (Price (bid_of maker taker)))
                         (Decimal_ (Price (ask_of maker taker))) = true)) /\
  ((forall r, fst (Match now (mkStore maker taker)) <> Returned r) ->
   snd (Match now (mkStore maker taker)) = mkStore maker taker).
Proof.
  destruct (side_cases maker taker) as [Heq | [(Hne & Hnb & Hns) | (Hne & Hside)]].
  - rewrite (Match_same_side now maker taker Heq). simpl.
    split; [| split; [| split; [| split]]]; try split; intros;
      break_hyps; eauto.
  - rewrite (Match_no_bid_ask now maker taker Hne Hnb Hns). simpl.
    split; [| split; [| split; [| split]]]; try split; intros;
      break_hyps; eauto.
  - destruct (Match_bid_ask_cases now maker taker Hne Hside)
      as [Hrun | [(trade & s' & Hrun) | (Hrun & Hrep & Hge)]];
      rewrite Hrun; simpl;
      (split; [| split; [| split; [| split]]]); try split; intros;
      break_hyps; eauto.
Qed.

(** [Match] returns without a trade only for a limit taker whose price
    test failed, and then nothing was written: the [return nil] that
    ends the function is never reached. *)
Theorem Match_no_trade_inv (now : Time) (maker taker : Order.t) (s' : Store) :
  Match now (mkStore maker taker) = (Returned None, s') ->
  IsLimit taker = true /\
  (toQ (Decimal_ (Price (bid_of maker taker)))
   < toQ (Decimal_ (Price (ask_of maker taker))))%Q /\
  s' = mkStore maker taker.
Proof.
  intro Hrun.
  destruct (side_cases maker taker) as [Heq | [(Hne & Hnb & Hns) | (Hne & Hside)]].
  - rewrite (Match_same_side now maker taker Heq) in Hrun. discriminate.
  - rewrite (Match_no_bid_ask now maker taker Hne Hnb Hns) in Hrun.
    discriminate.
  - rewrite (Match_bid_ask now maker taker Hne Hside) in Hrun.
    cbv zeta in Hrun.
    destruct (IsLimit taker); simpl andb in Hrun.
    + destruct (GreaterThanOrEqual _ _) eqn:Hge; simpl negb in Hrun;
        cbv iota in Hrun.
      * destruct (Mul _ _); discriminate.
      * injection Hrun as <-. split; [reflexivity | split; [| reflexivity]].
        apply Qnot_le_lt. intro Hle.
        apply GreaterThanOrEqual_spec in Hle. congruence.
    + cbv iota in Hrun. destruct (Mul _ _); discriminate.
Qed.

Lemma Match_no_trade_inv_witness :
  Match 2000 (mkStore examples.sell_51 examples.buy_50_5)
  = (Returned None, mkStore examples.sell_51 examples.buy_50_5) /\
  IsLimit examples.buy_50_5 = true /\
  (toQ (Decimal_ (Price (bid_of examples.sell_51 examples.buy_50_5)))
   < toQ (Decimal_ (Price (ask_of examples.sell_51 examples.buy_50_5))))%Q.
Proof.
  split; [reflexivity |].
  destruct (Match_no_trade_inv 2000 examples.sell_51 examples.buy_50_5 _
              eq_refl) as (Hl & Hlt & _).
  split; [exact Hl | exact Hlt].
Defined.

(** Whatever way a call of [Match] ends, the keys of both orders are
    what they were: a fill does not move an order in its book. *)
Theorem Match_keeps_keys (now : Time) (maker taker : Order.t) :
  Key (at_maker (snd (Match now (mkStore maker taker)))) = Key maker /\
  Key (at_taker (snd (Match now (mkStore maker taker)))) = Key taker.
Proof.
  destruct (side_cases maker taker) as [Heq | [(Hne & Hnb & Hns) | (Hne & Hside)]].
  - rewrite (Match_same_side now maker taker Heq). split; reflexivity.
  - rewrite (Match_no_bid_ask now maker taker Hne Hnb Hns). split; reflexivity.
  - rewrite (Match_bid_ask now maker taker Hne Hside). cbv zeta.
    destruct (IsLimit taker && negb _); [split; reflexivity |].
    destruct (Mul _ _); split; reflexivity.
Qed.

Lemma bid_ask_pair (maker taker : Order.t) :
  (bid_of maker taker = maker /\ ask_of maker taker = taker) \/
  (bid_of maker taker = taker /\ ask_of maker taker = maker).
Proof. unfold bid_of, ask_of. destruct (Side maker =? SideBuy); auto. Qed.

Lemma bid_ask_of_Fill (maker taker : Order.t) (q : Decimal) :
  bid_of (Fill maker q) (Fill taker q) = Fill (bid_of maker taker) q /\
  ask_of (Fill maker q) (Fill taker q) = Fill (ask_of maker taker) q.
Proof.
  unfold bid_of, ask_of. simpl. destruct (Side maker =? SideBuy); auto.
Qed.


(** The quantity [Match] fills, as a number. *)
Lemma toQ_trade_quantity (maker taker : Order.t) :
  (toQ (Min (PendingQuantity (bid_of maker taker))
            [PendingQuantity (ask_of maker taker)])
   == Qmin (toQ (PendingQuantity maker)) (toQ (PendingQuantity taker)))%Q.
Proof.
  rewrite toQ_Min_pair.
  destruct (bid_ask_pair maker taker) as [[-> ->] | [-> ->]];
    [reflexivity | apply Q.min_comm].
Qed.

(** A trade exhausts one of the two orders: after [Match] has returned a
    trade, the maker or the taker is filled. *)
Theorem Match_trade_fills_one (now : Time) (maker taker : Order.t)
    (trade : Trade.t) (s' : Store) :
  Match now (mkStore maker taker) = (Returned (Some trade), s') ->
  Filled (at_maker s') = true \/ Filled (at_taker s') = true.
Proof.
  intro Hrun.
  apply Match_trade_inv in Hrun.
  destruct Hrun as (_ & _ & _ & total & _ & _ & ->).
  cbn [at_maker at_taker].
  destruct (bid_ask_pair maker taker) as [[-> ->] | [-> ->]];
    match goal with
    | |- context [Min (PendingQuantity ?x) [PendingQuantity ?y]] =>
        destruct (Min_pair (PendingQuantity x) (PendingQuantity y))
          as [[_ ->] | [_ ->]]
    end;
    solve [left; apply Filled_Fill_pending
          | right; apply Filled_Fill_pending].
Qed.

Lemma Match_trade_fills_one_witness :
  exists trade s',
    Match 2000 (mkStore examples.sell_50 examples.buy_51)
    = (Returned (Some trade), s') /\
    (Filled (at_maker s') = true \/ Filled (at_taker s') = true).
Proof.
  eexists. eexists. split; [cbv; reflexivity |].
  match goal with
  | |- Filled (at_maker ?s') = true \/ _ =>
      exact (Match_trade_fills_one 2000 examples.sell_50 examples.buy_51
               _ s' eq_refl)
  end.
Defined.

(** The quantity of a trade never exceeds the pending quantity of either
    order; when both orders are within their quantities it is not
    negative, so no filled quantity ever decreases. *)
Theorem Match_trade_quantity_bounds (now : Time) (maker taker : Order.t)
    (trade : Trade.t) (s' : Store) :
  Match now (mkStore maker taker) = (Returned (Some trade), s') ->
  (toQ (Trade.Quantity trade) <= toQ (PendingQuantity maker))%Q /\
  (toQ (Trade.Quantity trade) <= toQ (PendingQuantity taker))%Q /\
  (fill_invariant maker = true -> fill_invariant taker = true ->
   (0 <= toQ (Trade.Quantity trade))%Q /\
   (toQ (FilledQuantity maker) <= toQ (FilledQuantity (at_maker s')))%Q /\
   (toQ (FilledQuantity taker) <= toQ (FilledQuantity (at_taker s')))%Q).
Proof.
  intro Hrun.
  apply Match_trade_inv in Hrun.
  destruct Hrun as (_ & _ & _ & total & _ & -> & ->).
  cbn [Trade.Quantity at_maker at_taker Fill FilledQuantity].
  rewrite !toQ_Add, toQ_trade_quantity.
  pose proof (Q.le_min_l (toQ (PendingQuantity maker))
                (toQ (PendingQuantity taker))) as Hl.
  pose proof (Q.le_min_r (toQ (PendingQuantity maker))
                (toQ (PendingQuantity taker))) as Hr.
  split; [exact Hl | split; [exact Hr |]].
  intros Hm Ht. apply fill_invariant_spec in Hm, Ht.
  assert (Hnn : (0 <= Qmin (toQ (PendingQuantity maker))
                          (toQ (PendingQuantity taker)))%Q).
  { apply Q.min_glb; rewrite toQ_PendingQuantity; lra. }
  repeat split; lra.
Qed.

Lemma Match_trade_quantity_bounds_witness :
  exists trade s',
    Match 2000 (mkStore examples.bid_100 examples.market_sell)
    = (Returned (Some trade), s') /\
    (toQ (Trade.Quantity trade) <= toQ (PendingQuantity examples.bid_100))%Q /\
    (toQ (Trade.Quantity trade)
     <= toQ (PendingQuantity examples.market_sell))%Q /\
    (0 <= toQ (Trade.Quantity trade))%Q.
Proof.
  eexists. eexists. split; [cbv; reflexivity |].
  match goal with
  | |- (toQ (Trade.Quantity ?trade) <= _)%Q /\ _ =>
      destruct (Match_trade_quantity_bounds 2000 examples.bid_100
                  examples.market_sell trade _ eq_refl) as (H1 & H2 & H3)
  end.
  split; [exact H1 | split; [exact H2 |]].
  exact (proj1 (H3 eq_refl eq_refl)).
Defined.

(** After a fill by the smaller pending quantity, the smaller pending
    quantity is zero and is picked again: as a number it is zero, and its
    exponent is that of the first. *)
Lemma second_quantity (b a : Order.t) :
  let q := Min (PendingQuantity b) [PendingQuantity a] in
  let q' := Min (PendingQuantity (Fill b q)) [PendingQuantity (Fill a q)] in
  (toQ q' == 0)%Q /\ exp q' = exp q.
Proof.
  cbv zeta.
  destruct (Min_pair (PendingQuantity b) (PendingQuantity a))
    as [[Hle ->] | [Hlt ->]].
  - destruct (Min_pair (PendingQuantity (Fill b (PendingQuantity b)))
                       (PendingQuantity (Fill a (PendingQuantity b))))
      as [[_ ->] | [Hlt' _]].
    + split.
      * rewrite toQ_PendingQuantity. cbn [Fill Quantity FilledQuantity].
        rewrite toQ_Add, toQ_PendingQuantity. ring.
      * unfold PendingQuantity. cbn [Fill Quantity FilledQuantity].
        rewrite !exp_Sub, exp_Add, exp_Sub. lia.
    + exfalso. revert Hlt'.
      rewrite !toQ_PendingQuantity. cbn [Fill Quantity FilledQuantity].
      rewrite !toQ_Add. rewrite !toQ_PendingQuantity in *. lra.
  - destruct (Min_pair (PendingQuantity (Fill b (PendingQuantity a)))
                       (PendingQuantity (Fill a (PendingQuantity a))))
      as [[Hle' _] | [_ ->]].
    + exfalso. revert Hle'.
      rewrite !toQ_PendingQuantity. cbn [Fill Quantity FilledQuantity].
      rewrite !toQ_Add. rewrite !toQ_PendingQuantity in *. lra.
    + split.
      * rewrite toQ_PendingQuantity. cbn [Fill Quantity FilledQuantity].
        rewrite toQ_Add, toQ_PendingQuantity. ring.
      * unfold PendingQuantity. cbn [Fill Quantity FilledQuantity].
        rewrite !exp_Sub, exp_Add, exp_Sub. lia.
Qed.

(** A crossing that has traded trades again when the product can be
    formed again: the prices and sides that let the first call through
    are untouched by its fills. *)
Lemma Match_again_runs (now' : Time) (maker taker : Order.t) (q total' : Decimal) :
  Side maker <> Side taker ->
  Side maker = SideBuy \/ Side maker = SideSell ->
  (IsLimit taker = true ->
   GreaterThanOrEqual (Decimal_ (Price (bid_of maker taker)))
                      (Decimal_ (Price (ask_of maker taker))) = true) ->
  Mul (Min (PendingQuantity (Fill (bid_of maker taker) q))
           [PendingQuantity (Fill (ask_of maker taker) q)])
      (Decimal_ (Price maker)) = Some total' ->
  exists trade' s'',
    Match now' (mkStore (Fill maker q) (Fill taker q))
    = (Returned (Some trade'), s'') /\
    Trade.Quantity trade'
    = Min (PendingQuantity (Fill (bid_of maker taker) q))
          [PendingQuantity (Fill (ask_of maker taker) q)] /\
    s'' = mkStore (Fill (Fill maker q) (Trade.Quantity trade'))
                  (Fill (Fill taker q) (Trade.Quantity trade')).
Proof.
  intros Hne Hside Hge Hmul.
  rewrite (Match_bid_ask now' (Fill maker q) (Fill taker q) Hne Hside).
  destruct (bid_ask_of_Fill maker taker q) as [-> ->].
  cbv zeta.
  replace (IsLimit (Fill taker q)) with (IsLimit taker) by reflexivity.
  replace (Price (Fill (bid_of maker taker) q))
    with (Price (bid_of maker taker)) by reflexivity.
  replace (Price (Fill (ask_of maker taker) q))
    with (Price (ask_of maker taker)) by reflexivity.
  replace (Price (Fill maker q)) with (Price maker) by reflexivity.
  rewrite Hmul.
  destruct (IsLimit taker); [rewrite (Hge eq_refl) |]; simpl andb; cbv iota;
    eexists; eexists; (split; [reflexivity | split; reflexivity]).
Qed.

(** Once [Match] has returned a trade, a second call on the same two
    orders returns a trade as well, of quantity zero: it changes neither
    filled quantity. *)
Theorem Match_again_trades_nothing (now now' : Time) (maker taker : Order.t)
    (trade : Trade.t) (s' : Store) :
  Match now (mkStore maker taker) = (Returned (Some trade), s') ->
  exists trade' s'',
    Match now' s' = (Returned (Some trade'), s'') /\
    (toQ (Trade.Quantity trade') == 0)%Q /\
    (toQ (FilledQuantity (at_maker s''))
     == toQ (FilledQuantity (at_maker s')))%Q /\
    (toQ (FilledQuantity (at_taker s''))
     == toQ (FilledQuantity (at_taker s')))%Q.
Proof.
  intro Hrun.
  apply Match_trade_inv in Hrun.
  destruct Hrun as (Hne & Hside & Hge & total & Hmul & _ & ->).
  set (q := Min (PendingQuantity (bid_of maker taker))
                [PendingQuantity (ask_of maker taker)]) in *.
  destruct (second_quantity (bid_of maker taker) (ask_of maker taker))
    as [Hzero Hexp].
  fold q in Hzero, Hexp.
  destruct (Mul_same_exp q (Decimal_ (Price maker))
              (Min (PendingQuantity (Fill (bid_of maker taker) q))
                   [PendingQuantity (Fill (ask_of maker taker) q)])
              (Decimal_ (Price maker)) total Hexp eq_refl Hmul)
    as [total' Hmul'].
  destruct (Match_again_runs now' maker taker q total' Hne Hside Hge Hmul')
    as (trade' & s'' & Hrun' & Hq' & ->).
  exists trade', (mkStore (Fill (Fill maker q) (Trade.Quantity trade'))
                          (Fill (Fill taker q) (Trade.Quantity trade'))).
  split; [exact Hrun' |].
  rewrite <- Hq' in Hzero.
  split; [exact Hzero |].
  cbn [at_maker at_taker Fill FilledQuantity].
  split; rewrite toQ_Add, Hzero; ring.
Qed.

Lemma Match_again_trades_nothing_witness :
  exists trade s' trade' s'',
    Match 2000 (mkStore examples.sell_50 examples.buy_51)
    = (Returned (Some trade), s') /\
    Match 2001 s' = (Returned (Some trade'), s'') /\
    (toQ (Trade.Quantity trade') == 0)%Q.
Proof.
  assert (Hfirst : exists trade s',
             Match 2000 (mkStore examples.sell_50 examples.buy_51)
             = (Returned (Some trade), s'))
    by (eexists; eexists; cbv; reflexivity).
  destruct Hfirst as (trade & s' & Hfirst).
  destruct (Match_again_trades_nothing 2000 2001 examples.sell_50
              examples.buy_51 trade s' Hfirst) as (trade' & s'' & H1 & H2 & _).
  exists trade, s', trade', s''.
  split; [exact Hfirst | split; [exact H1 | exact H2]].
Defined.

(** [Match] does not turn a filled order away: against a filled order, a
    crossing taker within its quantity gets a trade of quantity zero and
    total zero. *)
Theorem Match_filled_order_trades_zero (now : Time) (maker taker : Order.t)
    (trade : Trade.t) (s' : Store) :
  Filled maker = true \/ Filled taker = true ->
  fill_invariant maker = true ->
  fill_invariant taker = true ->
  Match now (mkStore maker taker) = (Returned (Some trade), s') ->
  (toQ (Trade.Quantity trade) == 0)%Q /\
  (toQ (Trade.Total trade) == 0)%Q.
Proof.
  intros Hfilled Hm Ht Hrun.
  apply Match_trade_inv in Hrun.
  destruct Hrun as (_ & _ & _ & total & Hmul & -> & _).
  cbn [Trade.Quantity Trade.Total].
  assert (Hzero : (toQ (Min (PendingQuantity (bid_of maker taker))
                            [PendingQuantity (ask_of maker taker)]) == 0)%Q).
  { rewrite toQ_trade_quantity, !toQ_PendingQuantity.
    apply fill_invariant_spec in Hm, Ht.
    destruct Hfilled as [Hf | Hf]; apply Filled_spec in Hf.
    - rewrite Q.min_l; lra.
    - rewrite Q.min_r; lra. }
  split; [exact Hzero |].
  rewrite (toQ_Mul _ _ _ Hmul), Hzero. ring.
Qed.

Lemma Match_filled_order_trades_zero_witness :
  exists trade s',
    Match 2000 (mkStore examples.sell_50_filled examples.buy_51)
    = (Returned (Some trade), s') /\
    Filled examples.sell_50_filled = true /\
    (toQ (Trade.Quantity trade) == 0)%Q /\
    (toQ (Trade.Total trade) == 0)%Q.
Proof.
  eexists. eexists. split; [cbv; reflexivity |].
  split; [reflexivity |].
  match goal with
  | |- (toQ (Trade.Quantity ?trade) == 0)%Q /\ _ =>
      exact (Match_filled_order_trades_zero 2000 examples.sell_50_filled
               examples.buy_51 trade _ (or_introl eq_refl) eq_refl eq_refl
               eq_refl)
  end.
Defined.



(** The roles do matter for the panic: the buy limit at 60 and the sell
    limit at 5e1 for 1e2147483647 trade with the buyer resting, and end in
    the panic of [Mul] with the seller resting. *)
Example roles_and_overflow :
  produces_trade 2000 examples.buy_60_huge examples.sell_5e1_huge /\
  Match 2000 (mkStore examples.sell_5e1_huge examples.buy_60_huge)
  = (ExponentOverflow 2147483648,
     mkStore examples.sell_5e1_huge examples.buy_60_huge).
Proof.
  split; [| vm_compute; reflexivity].
  eexists. eexists. vm_compute. reflexivity.
Qed.

End Matching_facts.

(** * Both comparators, and priority against crossing *)
Module Priority_facts.

Import decimal matching decimal_facts Match_facts Comparator_facts.

Local Open Scope string_scope.

Lemma Comparator_different_sides (a b : Key.t) :
  Key.Side a <> Key.Side b ->
  Comparator a b
  = Fatal "[oceanbook.orderbook] compare order with different sides" [].
Proof.
  intro Hne. unfold Comparator. apply String.eqb_neq in Hne.
  rewrite Hne. reflexivity.
Qed.

Lemma Comparator_returns_same_side (a b : Key.t) (r : Z) :
  Comparator a b = Returned r -> Key.Side a = Key.Side b.
Proof.
  intro Hr. destruct (string_dec (Key.Side a) (Key.Side b)) as [Heq | Hne];
    [assumption |].
  rewrite (Comparator_different_sides a b Hne) in Hr. discriminate.
Qed.

Lemma Comparator_one_iff (a b : Key.t) :
  Key.Side a = Key.Side b ->
  (Comparator a b = Returned 1 <-> Key.ID a <> Key.ID b /\ outranks a b).
Proof.
  intro Hside. split.
  - intro H1.
    assert (Hid : Key.ID a <> Key.ID b).
    { intro Hid. rewrite (Comparator_same_ID a b Hside Hid) in H1.
      discriminate. }
    split; [assumption |].
    destruct (Comparator_distinct a b Hside Hid) as [[_ Ho] | [E _]];
      [assumption | congruence].
  - intros [Hid Ho].
    destruct (Comparator_distinct a b Hside Hid) as [[E _] | [_ Ho']];
      [assumption |].
    exfalso. exact (outranks_asym _ _ Ho Ho').
Qed.

Lemma Comparator_minus_one_iff (a b : Key.t) :
  Key.Side a = Key.Side b ->
  (Comparator a b = Returned (-1) <-> Key.ID a <> Key.ID b /\ outranks b a).
Proof.
  intro Hside. split.
  - intro H1.
    assert (Hid : Key.ID a <> Key.ID b).
    { intro Hid. rewrite (Comparator_same_ID a b Hside Hid) in H1.
      discriminate. }
    split; [assumption |].
    destruct (Comparator_distinct a b Hside Hid) as [[E _] | [_ Ho]];
      [congruence | assumption].
  - intros [Hid Ho].
    destruct (Comparator_distinct a b Hside Hid) as [[_ Ho'] | [E _]];
      [| assumption].
    exfalso. exact (outranks_asym _ _ Ho Ho').
Qed.

(** Chains of equal results compose, on keys that their IDs tell
    apart. *)
Lemma Comparator_chain (a b c : Key.t) :
  Key.Side a = Key.Side b ->
  Key.Side b = Key.Side c ->
  (Key.ID a = Key.ID c -> a = c) ->
  (Comparator a b = Returned 1 -> Comparator b c = Returned 1 ->
   Comparator a c = Returned 1) /\
  (Comparator a b = Returned (-1) -> Comparator b c = Returned (-1) ->
   Comparator a c = Returned (-1)).
Proof.
  intros Hab Hbc Hkey.
  assert (Hac : Key.Side a = Key.Side c) by congruence.
  split; intros H1 H2.
  - apply (Comparator_one_iff a b Hab) in H1. destruct H1 as [_ O1].
    apply (Comparator_one_iff b c Hbc) in H2. destruct H2 as [_ O2].
    apply (Comparator_one_iff a c Hac). split.
    + intro Hid. rewrite <- (Hkey Hid) in O2.
      exact (outranks_asym _ _ O1 O2).
    + exact (outranks_trans _ _ _ O1 O2).
  - apply (Comparator_minus_one_iff a b Hab) in H1. destruct H1 as [_ O1].
    apply (Comparator_minus_one_iff b c Hbc) in H2. destruct H2 as [_ O2].
    apply (Comparator_minus_one_iff a c Hac). split.
    + intro Hid. rewrite <- (Hkey Hid) in O2.
      exact (outranks_asym _ _ O1 O2).
    + exact (outranks_trans _ _ _ O2 O1).
Qed.

(** [StopComparator] is [Comparator] with the stop price in the place of
    the price. *)
Lemma StopComparator_by_stop (a b : Key.t) :
  StopComparator a b = Comparator (by_stop a) (by_stop b).
Proof. reflexivity. Qed.

(** Both comparators return a number exactly on two keys of one side: on
    keys of different sides they end in the fatal log entry, whatever the
    IDs, prices and times are. *)
Theorem comparators_return_iff_same_side (a b : Key.t) :
  ((exists r, Comparator a b = Returned r) <-> Key.Side a = Key.Side b) /\
  ((exists r, StopComparator a b = Returned r) <-> Key.Side a = Key.Side b) /\
  (Key.Side a <> Key.Side b ->
   Comparator a b
   = Fatal "[oceanbook.orderbook] compare order with different sides" [] /\
   StopComparator a b
   = Fatal "[oceanbook.orderbook] compare order with different sides" []).
Proof.
  split; [| split].
  - split.
    + intros [r Hr]. exact (Comparator_returns_same_side a b r Hr).
    + intro Hside. destruct (Comparator_antisym a b Hside) as (r & Hr & _).
      eauto.
  - rewrite StopComparator_by_stop. split.
    + intros [r Hr].
      exact (Comparator_returns_same_side (by_stop a) (by_stop b) r Hr).
    + intro Hside.
      destruct (Comparator_antisym (by_stop a) (by_stop b) Hside)
        as (r & Hr & _).
      eauto.
  - intro Hne. split.
    + exact (Comparator_different_sides a b Hne).
    + rewrite StopComparator_by_stop.
      exact (Comparator_different_sides (by_stop a) (by_stop b) Hne).
Qed.

(** On keys of one side [StopComparator] is a strict total order: it
    returns -1, 0 or 1, the opposite number with the arguments swapped, 0
    exactly for equal IDs, and it is transitive on keys that their IDs
    tell apart. *)
Theorem StopComparator_strict_total_order (a b c : Key.t) :
  Key.Side a = Key.Side b ->
  Key.Side b = Key.Side c ->
  (exists r : Z,
     StopComparator a b = Returned r /\
     StopComparator b a = Returned (- r) /\
     (r = -1 \/ r = 0 \/ r = 1) /\
     (r = 0 <-> Key.ID a = Key.ID b)) /\
  ((Key.ID a = Key.ID c -> a = c) ->
   (StopComparator a b = Returned 1 -> StopComparator b c = Returned 1 ->
    StopComparator a c = Returned 1) /\
   (StopComparator a b = Returned (-1) -> StopComparator b c = Returned (-1) ->
    StopComparator a c = Returned (-1))).
Proof.
  intros Hab Hbc. rewrite !StopComparator_by_stop. split.
  - exact (Comparator_antisym (by_stop a) (by_stop b) Hab).
  - intro Hkey.
    apply (Comparator_chain (by_stop a) (by_stop b) (by_stop c) Hab Hbc).
    intro Hid. rewrite (Hkey Hid). reflexivity.
Qed.

Lemma StopComparator_strict_total_order_witness :
  StopComparator (examples.stop_key 1 SideSell 90 7)
                 (examples.stop_key 2 SideSell 95 5) = Returned 1 /\
  StopComparator (examples.stop_key 2 SideSell 95 5)
                 (examples.stop_key 3 SideSell 95 6) = Returned 1 /\
  StopComparator (examples.stop_key 1 SideSell 90 7)
                 (examples.stop_key 3 SideSell 95 6) = Returned 1.
Proof.
  split; [reflexivity | split; [reflexivity |]].
  refine (proj1 (proj2
            (StopComparator_strict_total_order
               (examples.stop_key 1 SideSell 90 7)
               (examples.stop_key 2 SideSell 95 5)
               (examples.stop_key 3 SideSell 95 6) eq_refl eq_refl) _)
            eq_refl eq_refl).
  simpl. intro H. discriminate H.
Defined.

(** On two keys of one side with different IDs [StopComparator] ranks by
    stop price, then time, then ID: among sells the strictly lower stop
    price is above, among buys the strictly higher one; at equal stop
    prices the earlier creation time is above, and at equal times the
    lower ID.  The price of a key plays no part. *)
Theorem StopComparator_stop_time_priority (a b : Key.t) :
  Key.Side a = Key.Side b ->
  Key.ID a <> Key.ID b ->
  (Key.Side a = SideSell ->
   (toQ (Decimal_ (Key.StopPrice a)) < toQ (Decimal_ (Key.StopPrice b)))%Q ->
   stop_ranks_above a b) /\
  (Key.Side a = SideBuy ->
   (toQ (Decimal_ (Key.StopPrice b)) < toQ (Decimal_ (Key.StopPrice a)))%Q ->
   stop_ranks_above a b) /\
  ((toQ (Decimal_ (Key.StopPrice a)) == toQ (Decimal_ (Key.StopPrice b)))%Q ->
   Key.CreatedAt a < Key.CreatedAt b ->
   stop_ranks_above a b) /\
  ((toQ (Decimal_ (Key.StopPrice a)) == toQ (Decimal_ (Key.StopPrice b)))%Q ->
   Key.CreatedAt a = Key.CreatedAt b ->
   (Key.ID a < Key.ID b)%N ->
   stop_ranks_above a b).
Proof.
  intros Hside Hid.
  assert (Hiff : stop_ranks_above a b <-> outranks (by_stop a) (by_stop b)).
  { unfold stop_ranks_above. rewrite !StopComparator_by_stop.
    exact (ranks_above_iff (by_stop a) (by_stop b) Hside Hid). }
  assert (Htie : (toQ (Decimal_ (Key.StopPrice a))
                  == toQ (Decimal_ (Key.StopPrice b)))%Q ->
                 (price_rank (by_stop a) == price_rank (by_stop b))%Q).
  { intro Heq. unfold price_rank. simpl. rewrite <- Hside.
    destruct (Key.Side a =? SideSell); [lra |].
    destruct (Key.Side a =? SideBuy); lra. }
  split; [| split; [| split]].
  - intros Hsell Hlt. apply Hiff. left. unfold price_rank. simpl.
    rewrite <- Hside, Hsell. simpl. lra.
  - intros Hbuy Hlt. apply Hiff. left. unfold price_rank. simpl.
    rewrite <- Hside, Hbuy. simpl. lra.
  - intros Heq Hlt. apply Hiff. right. split; [auto | left; assumption].
  - intros Heq Ht Hlt. apply Hiff. right. split; [auto | right; auto].
Qed.

Lemma StopComparator_stop_time_priority_witness :
  stop_ranks_above (examples.stop_key 1 SideSell 90 7)
                   (examples.stop_key 2 SideSell 95 5) /\
  stop_ranks_above (examples.stop_key 2 SideBuy 90 5)
                   (examples.stop_key 1 SideBuy 90 7).
Proof.
  split.
  - refine (proj1 (StopComparator_stop_time_priority
                     (examples.stop_key 1 SideSell 90 7)
                     (examples.stop_key 2 SideSell 95 5) eq_refl _)
                  eq_refl eq_refl).
    simpl. intro H. discriminate H.
  - refine (proj1 (proj2 (proj2 (StopComparator_stop_time_priority
                     (examples.stop_key 2 SideBuy 90 5)
                     (examples.stop_key 1 SideBuy 90 7) eq_refl _)))
                  eq_refl eq_refl).
    simpl. intro H. discriminate H.
Defined.



(** Without that proviso the better-priced order can be the one that does
    not trade: a buy limit at 60 for 1e2147483647 trades against the sell
    at 60e0 and ends in the panic of [Mul] against the sell at 5e1, which
    [Comparator] ranks above. *)
Example best_maker_overflow :
  Comparator (Order.Key examples.sell_5e1_huge)
             (Order.Key examples.sell_60_huge) = Returned 1 /\
  produces_trade 2000 examples.sell_60_huge examples.buy_60_huge /\
  Order.Match 2000 (Order.mkStore examples.sell_5e1_huge examples.buy_60_huge)
  = (ExponentOverflow 2147483648,
     Order.mkStore examples.sell_5e1_huge examples.buy_60_huge).
Proof.
  split; [vm_compute; reflexivity | split; [| vm_compute; reflexivity]].
  eexists. eexists. vm_compute. reflexivity.
Qed.

End Priority_facts.
